(** * Satellite-imagery-utils: bounding boxes and field masks

    A shallow embedding of [satellite_utils.py]: the two geometric helpers
    [get_square_around_point] and [get_bbox_of_given_size], and the polygon
    rasteriser [get_field_pixels].

    Numbers.  The module computes with Python floats and [np.float64], both
    IEEE binary64.  The functions are written once over an arithmetic
    interface ([Arith], [Trig]) and read at two instances:
    - [float]: Rocq's primitive binary64 numbers, bit for bit what Python
      computes.  [np.cos] is libm's and is taken as a parameter.
    - [R]: the same formulas without rounding, for the statements of
      elementary geometry.  Over [R] a quotient by zero has no meaning
      (Rocq gives it the value zero): the statements read there keep the
      divisors away from zero.
    A Python [int] enters float arithmetic through [of_int]; on [float] the
    conversion is correctly rounded, as Python's is.  Integers beyond the
    binary64 range (where Python raises [OverflowError]) are outside the
    model: no index, array dimension or pixel count comes near.

    Errors.  A Python exception is a [Raise] in the [result] monad.  A true
    division [x / k] by a Python int or float raises [ZeroDivisionError] when
    [k] is zero; a division whose divisor is an [np.float64] follows IEEE 754
    (numpy warns and returns an infinity or a NaN). *)

From Stdlib Require Import ZArith List Lia Bool Reals Lra Floats.
From stdpp Require Import base list strings gmap pretty.
Import ListNotations.

Set Implicit Arguments.

(** ** Exceptions and the result monad *)

Inductive exception : Set :=
| ZeroDivisionError
| ValueError
| IndexError.

Inductive result (A : Type) : Type :=
| Ok (a : A)
| Raise (e : exception).

Arguments Ok {A} a.
Arguments Raise {A} e.

Definition bind {A B : Type} (r : result A) (k : A -> result B) : result B :=
  match r with
  | Ok a => k a
  | Raise e => Raise e
  end.

Notation "x <- e ;; k" := (bind e (fun x => k))
  (at level 100, e at next level, right associativity).

(** A [for] loop over a list of items, threading the loop state and stopping
    at the first exception. *)
Fixpoint for_each {S I : Type} (body : S -> I -> result S) (s : S) (items : list I)
  : result S :=
  match items with
  | [] => Ok s
  | i :: rest => s' <- body s i ;; for_each body s' rest
  end.

(** ** The arithmetic interface *)

Declare Scope num_scope.
Delimit Scope num_scope with num.

Class Arith (num : Type) : Type := {
  of_int : Z -> num;
  add : num -> num -> num;
  sub : num -> num -> num;
  mul : num -> num -> num;
  div : num -> num -> num
}.

Class Trig (num : Type) : Type := {
  np_pi : num;
  np_cos : num -> num
}.

Class Order (num : Type) : Type := {
  lt : num -> num -> Prop;
  le : num -> num -> Prop
}.

Infix "+" := add : num_scope.
Infix "-" := sub : num_scope.
Infix "*" := mul : num_scope.
Infix "/" := div : num_scope.
Infix "<" := lt : num_scope.
Infix "<=" := le : num_scope.

(** The one law the statements below need: addition commutes (it does in
    IEEE 754 and over the reals). *)
Class ArithLaws (num : Type) `{Arith num} : Prop := {
  add_comm : forall x y : num, (x + y)%num = (y + x)%num
}.

Arguments ArithLaws num {_}.

(** *** binary64 *)

(** [float(z)]: the binary64 number nearest to [z], ties to even. *)
Definition Z2float (z : Z) : float :=
  SF2Prim (binary_normalize prec emax z 0 false).

#[export] Instance float_arith : Arith float := {
  of_int := Z2float;
  add := PrimFloat.add;
  sub := PrimFloat.sub;
  mul := PrimFloat.mul;
  div := PrimFloat.div
}.

#[export] Instance float_order : Order float := {
  lt := fun x y => (x <? y)%float = true;
  le := fun x y => (x <=? y)%float = true
}.

(** [np.pi] is the double [0x1.921fb54442d18p+1]. *)
Definition float_pi : float := 0x1.921fb54442d18p+1%float.

Definition float_trig (libm_cos : float -> float) : Trig float := {|
  np_pi := float_pi;
  np_cos := libm_cos
|}.

(** *** exact arithmetic *)

#[export] Instance R_arith : Arith R := {
  of_int := IZR;
  add := Rplus;
  sub := Rminus;
  mul := Rmult;
  div := Rdiv
}.

#[export] Instance R_order : Order R := {
  lt := Rlt;
  le := Rle
}.

#[export] Instance R_trig : Trig R := {|
  np_pi := PI;
  np_cos := cos
|}.

(** ** Python and numpy operators *)

Section Operators.
Context {num : Type} `{Arith num}.

(** [x / k] where the divisor is a Python number: [ZeroDivisionError] on a
    zero divisor.  An int divisor is zero exactly when its float is. *)
Definition truediv (x : num) (k : Z) : result num :=
  if (k =? 0)%Z then Raise ZeroDivisionError else Ok (x / of_int k)%num.

(** [x / y] where [y] is an [np.float64]: the IEEE quotient, no exception. *)
Definition np_divide (x y : num) : num := (x / y)%num.

Context `{Trig num}.

(** [np.deg2rad(x)] is [x * (pi / 180)]. *)
Definition np_deg2rad (x : num) : num := (x * (np_pi / of_int 180))%num.
End Operators.

(** ** get_square_around_point *)

Definition m_to_deg : Z := 111111.

Section SquareAroundPoint.
Context {num : Type} `{Arith num} `{Trig num}.

(** [lon], [lat] and [m] are the numbers passed; an int argument is the
    float of the same value ([of_int]), which is what Python's mixed
    arithmetic makes of it.  [m / 2] and [half_side / m_to_deg] are Python
    divisions by int literals; [np.cos] returns an [np.float64], so the
    third quotient is numpy's. *)
Definition get_square_around_point (lon lat m : num) : result (list num) :=
  half_side <- truediv m 2 ;;
  let x_min :=
    (lon - np_divide half_side (of_int m_to_deg * np_cos (np_deg2rad lat)))%num in
  let x_max :=
    (lon + np_divide half_side (of_int m_to_deg * np_cos (np_deg2rad lat)))%num in
  dy <- truediv half_side m_to_deg ;;
  let y_min := (lat - dy)%num in
  dy <- truediv half_side m_to_deg ;;
  let y_max := (lat + dy)%num in
  Ok [x_min; y_min; x_max; y_max].

(** The two offsets the function puts around the point: in degrees of
    longitude and of latitude. *)
Definition lon_offset (lat m : num) : num :=
  (np_divide (m / of_int 2) (of_int m_to_deg * np_cos (np_deg2rad lat)))%num.

Definition lat_offset (m : num) : num := ((m / of_int 2) / of_int m_to_deg)%num.
End SquareAroundPoint.

(** ** Bounding boxes *)

Inductive CRS : Set :=
| WGS84
| POP_WEB
| UTM (zone : Z).

(** Modelled from the spec: the [BBox] class of the imagery client, which is
    not part of this repository.  A box is its four coordinates, in the
    order the constructor receives them, and its reference system.  The
    client's constructor orders each pair of coordinates: the record is the
    client's box for coordinates given with [min <= max] on both axes, as
    the docstrings of this module ask. *)
Record BBox (num : Type) : Type := mkBBox {
  min_x : num;
  min_y : num;
  max_x : num;
  max_y : num;
  crs : CRS
}.

Arguments mkBBox {num} _ _ _ _ _.

(** [list(box)]: the coordinates of a box, as [get_bbox_of_given_size]
    takes them. *)
Definition bbox_coords {num : Type} (b : BBox num) : list num :=
  [min_x b; min_y b; max_x b; max_y b].

(** [box_size == pix] on tuples of two ints. *)
Definition dims_eqb (a b : Z * Z) : bool :=
  ((fst a =? fst b)%Z && (snd a =? snd b)%Z)%bool.

(** ** get_bbox_of_given_size *)

Section BBoxOfGivenSize.
Context {num : Type} `{Arith num}.

(** The imagery client's [bbox_to_dimensions(box, resolution)]: the pixel
    grid a box yields at a ground resolution. *)
Variable bbox_to_dimensions : BBox num -> Z -> Z * Z.

(** [coords] holds four Python floats and [pix] two ints, as the docstring
    says; [box_size] is a tuple of two ints.  The two quotients are Python
    divisions of a float by an int.  (Were the coordinates [np.float64], a
    zero divisor would give an infinity or a NaN instead of the exception;
    nothing else would change.) *)
Definition get_bbox_of_given_size (coords : list num) (pix : Z * Z) (resolution : Z)
  : result (BBox num) :=
  match coords with
  | [x_min; y_min; x_max; y_max] =>
      let box := mkBBox x_min y_min x_max y_max WGS84 in
      let box_size := bbox_to_dimensions box resolution in
      if dims_eqb box_size pix then Ok box
      else
        q <- truediv ((x_max - x_min) * of_int (fst pix))%num (fst box_size) ;;
        let x_max := (q + x_min)%num in
        q <- truediv ((y_max - y_min) * of_int (snd pix))%num (snd box_size) ;;
        let y_max := (q + y_min)%num in
        let box := mkBBox x_min y_min x_max y_max WGS84 in
        Ok box
  | _ => Raise ValueError
  end.

(** The rescaling as the specification words it:
    [new_max = min + (old_max - min) * target_dim / natural_dim]. *)
Definition rescaled_max (mn old_max : num) (target_dim natural_dim : Z) : num :=
  (mn + ((old_max - mn) * of_int target_dim) / of_int natural_dim)%num.

(** Applying the function again to the box it returned. *)
Definition get_bbox_twice (coords : list num) (pix : Z * Z) (resolution : Z)
  : result (BBox num) :=
  box <- get_bbox_of_given_size coords pix resolution ;;
  get_bbox_of_given_size (bbox_coords box) pix resolution.
End BBoxOfGivenSize.

(** ** Arrays *)

(** An [ndarray]: its shape and its elements in row-major order. *)
Record ndarray (A : Type) : Type := mk_ndarray {
  shape : list nat;
  data : list A
}.

Arguments mk_ndarray {A} _ _.

(** [t[k]] on a tuple. *)
Definition tuple_getitem {A : Type} (t : list A) (k : nat) : result A :=
  match t !! k with
  | Some a => Ok a
  | None => Raise IndexError
  end.

(** [np.zeros((r, c), dtype=np.bool)]. *)
Definition np_zeros (r c : nat) : ndarray bool :=
  mk_ndarray [r; c] (replicate (r * c) false).

(** [np.ndindex((r, c))]: every index pair, the last index moving fastest. *)
Definition np_ndindex (r c : nat) : list (nat * nat) :=
  flat_map (fun i => map (fun j => (i, j)) (seq 0 c)) (seq 0 r).

(** [a[i, j]] and [a[i, j] = v] on a two-dimensional array. *)
Definition getitem2 {A : Type} (a : ndarray A) (i j : nat) : result A :=
  match shape a with
  | [r; c] =>
      if (i <? r)%nat && (j <? c)%nat then tuple_getitem (data a) (i * c + j)
      else Raise IndexError
  | _ => Raise IndexError
  end.

Definition setitem2 {A : Type} (a : ndarray A) (i j : nat) (v : A) : result (ndarray A) :=
  match shape a with
  | [r; c] =>
      if (i <? r)%nat && (j <? c)%nat
      then Ok (mk_ndarray (shape a) (<[(i * c + j)%nat := v]> (data a)))
      else Raise IndexError
  | _ => Raise IndexError
  end.

(** The elements of a [c]-column array after [a[i, j] = f i j] for each
    index of [idxs] in turn. *)
Definition assign_all {A : Type} (c : nat) (f : nat -> nat -> A)
    (idxs : list (nat * nat)) (d : list A) : list A :=
  fold_left (fun d ij => <[(fst ij * c + snd ij)%nat := f (fst ij) (snd ij)]> d) idxs d.

(** ** get_field_pixels *)

Record Point (num : Type) : Type := mkPoint {
  point_x : num;
  point_y : num
}.

Arguments mkPoint {num} _ _.

Section FieldPixels.
Context {num : Type} `{Arith num}.

(** The geometry library's polygons and its test [field.contains(p)], true
    when [p] lies in the interior of [field]. *)
Variable Polygon : Type.
Variable contains : Polygon -> Point num -> bool.

(** The body of the loop.  [2*i+1] and [2 * n_x] are ints, [x_len] is a
    float: a product of an int by a float, then a Python division by an
    int. *)
Definition pixel_step (mask : ndarray bool) (n_x n_y : nat) (x_len y_len : num)
    (bbox : BBox num) (field : Polygon) (ij : nat * nat) : result (ndarray bool) :=
  let '(i, j) := ij in
  q <- truediv (of_int (2 * Z.of_nat i + 1) * x_len)%num (2 * Z.of_nat n_x) ;;
  let x := (min_x bbox + q)%num in
  q <- truediv (of_int (2 * Z.of_nat j + 1) * y_len)%num (2 * Z.of_nat n_y) ;;
  let y := (min_y bbox + q)%num in
  let p := mkPoint x y in
  setitem2 mask i j (contains field p).

Definition get_field_pixels (img : ndarray num) (bbox : BBox num) (field : Polygon)
  : result (ndarray bool) :=
  rows <- tuple_getitem (shape img) 0 ;;
  cols <- tuple_getitem (shape img) 1 ;;
  let mask := np_zeros rows cols in
  match shape mask with
  | [n_x; n_y] =>
      let x_len := (max_x bbox - min_x bbox)%num in
      let y_len := (max_y bbox - min_y bbox)%num in
      for_each (fun mask ij => pixel_step mask n_x n_y x_len y_len bbox field ij)
               mask (np_ndindex n_x n_y)
  | _ => Raise ValueError
  end.

(** The centre of pixel [(i, j)] as the specification words it. *)
Definition pixel_center (rows cols : nat) (bbox : BBox num) (i j : nat) : Point num :=
  mkPoint
    (min_x bbox
     + (of_int (2 * Z.of_nat i + 1) * (max_x bbox - min_x bbox))
       / of_int (2 * Z.of_nat rows))%num
    (min_y bbox
     + (of_int (2 * Z.of_nat j + 1) * (max_y bbox - min_y bbox))
       / of_int (2 * Z.of_nat cols))%num.

(** What the loop writes in cell [(i, j)]. *)
Definition cell_value (rows cols : nat) (bbox : BBox num) (field : Polygon)
    (i j : nat) : bool :=
  contains field (pixel_center rows cols bbox i j).
End FieldPixels.

(** ** Boxes, polygons and masks *)

Section Regions.
Context {num : Type} `{Order num}.

(** [p] lies in the open rectangle of [b]. *)
Definition strictly_inside (b : BBox num) (p : Point num) : Prop :=
  (min_x b < point_x p)%num /\ (point_x p < max_x b)%num /\
  (min_y b < point_y p)%num /\ (point_y p < max_y b)%num.

(** [p] lies in the closed rectangle of [b]. *)
Definition within (b : BBox num) (p : Point num) : Prop :=
  (min_x b <= point_x p)%num /\ (point_x p <= max_x b)%num /\
  (min_y b <= point_y p)%num /\ (point_y p <= max_y b)%num.

Variable Polygon : Type.
Variable contains : Polygon -> Point num -> bool.

(** The polygon is the rectangle of the box: its interior is the open
    rectangle. *)
Definition covers_bbox (field : Polygon) (b : BBox num) : Prop :=
  forall p, contains field p = true <-> strictly_inside b p.

(** The polygon has no interior point in the closed rectangle of the box. *)
Definition outside_bbox (field : Polygon) (b : BBox num) : Prop :=
  forall p, contains field p = true -> ~ within b p.
End Regions.

Definition all_true (mask : ndarray bool) : Prop := Forall (fun v => v = true) (data mask).
Definition all_false (mask : ndarray bool) : Prop := Forall (fun v => v = false) (data mask).

(** ** Concrete capabilities on binary64 *)

(** A rectangle as a polygon: [contains] is the open-rectangle test. *)
Definition float_rectangle_contains (field : BBox float) (p : Point float) : bool :=
  ((min_x field <? point_x p) && (point_x p <? max_x field) &&
   (min_y field <? point_y p) && (point_y p <? max_y field))%float.

(** A dimension capability: the number of pixels of side [resolution] along
    an extent [w], rounded half up, for grids of at most twenty pixels. *)
Definition float_rounded_dim (w : float) (resolution : Z) : Z :=
  Z.of_nat (length (List.filter
    (fun k => ((Z2float k - 0.5) * Z2float resolution <=? w)%float)
    (map Z.of_nat (seq 1 20)))).

Definition float_rounded_dimensions (b : BBox float) (resolution : Z) : Z * Z :=
  (float_rounded_dim (max_x b - min_x b)%float resolution,
   float_rounded_dim (max_y b - min_y b)%float resolution).

(** A stand-in for libm's cosine near zero, to instantiate statements that
    assume [cos 0 = 1]. *)
Definition float_cos_poly (x : float) : float :=
  (1 - x * x / 2 + x * x * x * x / 24)%float.

(** A dimension capability is monotonic in the extent of the box. *)
Definition monotonic_dimensions (dims : BBox float -> Z -> Z * Z) : Prop :=
  forall (b1 b2 : BBox float) (resolution : Z),
    (max_x b1 - min_x b1 <=? max_x b2 - min_x b2)%float = true ->
    (max_y b1 - min_y b1 <=? max_y b2 - min_y b2)%float = true ->
    (fst (dims b1 resolution) <= fst (dims b2 resolution))%Z /\
    (snd (dims b1 resolution) <= snd (dims b2 resolution))%Z.

(** ** Concrete capabilities over the reals *)

#[export] Instance Rlt_decision (x y : R) : Decision (x < y)%R := Rlt_dec x y.

Definition real_rectangle_contains (field : BBox R) (p : Point R) : bool :=
  bool_decide ((min_x field < point_x p)%R /\ (point_x p < max_x field)%R /\
               (min_y field < point_y p)%R /\ (point_y p < max_y field)%R).

(** ** The request and catalogue helpers *)

(** The exceptions these two helpers can meet. *)
Inductive py_error : Set :=
| UnboundLocalError
| OverflowError
| KeyError
| TypeError.

Inductive outcome (A : Type) : Type :=
| Return (a : A)
| Throw (e : py_error).

Arguments Return {A} a.
Arguments Throw {A} e.

Definition and_then {A B : Type} (r : outcome A) (k : A -> outcome B) : outcome B :=
  match r with
  | Return a => k a
  | Throw e => Throw e
  end.

Notation "x <~ e ;; k" := (and_then e (fun x => k))
  (at level 100, e at next level, right associativity).

Fixpoint for_loop {S I : Type} (body : S -> I -> outcome S) (s : S) (items : list I)
  : outcome S :=
  match items with
  | [] => Return s
  | i :: rest => s' <~ body s i ;; for_loop body s' rest
  end.

(** *** Dates

    Modelled from Python's [datetime]: a date or datetime is seen through
    its proleptic Gregorian ordinal ([toordinal()]), from 1 (0001-01-01) to
    3652059 (9999-12-31); shifting by whole days leaves the time of day
    alone and [str(d).split()[0]] drops it.  A [timedelta] of whole days is
    its number of days, of magnitude at most 999999999.  Leaving either
    range raises [OverflowError]. *)

Definition date : Type := Z.
Definition timedelta : Type := Z.

Definition MIN_ORDINAL : Z := 1.
Definition MAX_ORDINAL : Z := 3652059.
Definition MAX_DELTA_DAYS : Z := 999999999.

Definition one_day : timedelta := 1%Z.

(** [k * td] for an int [k]. *)
Definition timedelta_rmul (k : Z) (td : timedelta) : outcome timedelta :=
  if (Z.abs (k * td) <=? MAX_DELTA_DAYS)%Z then Return (k * td)%Z
  else Throw OverflowError.

(** [d + td] and [d - td]. *)
Definition date_add (d : date) (td : timedelta) : outcome date :=
  if ((MIN_ORDINAL <=? d + td)%Z && (d + td <=? MAX_ORDINAL)%Z)%bool
  then Return (d + td)%Z
  else Throw OverflowError.

Definition date_sub (d : date) (td : timedelta) : outcome date :=
  date_add d (- td)%Z.

(** [int(k / 2)] and for an int [k]: the quotient truncated toward zero.
    (The float quotient is exact up to 2^53, far beyond the days a
    [timedelta] can hold.) *)
Definition int_half (k : Z) : Z := Z.quot k 2.

Definition in_date_range (d : Z) : Prop :=
  (MIN_ORDINAL <= d)%Z /\ (d <= MAX_ORDINAL)%Z.

(** *** Requests *)

Inductive DataSource : Set :=
| SENTINEL2_L1C
| SENTINEL2_L2A
| LANDSAT8.

Inductive MimeType : Set :=
| TIFF
| PNG
| JPG.

Record InputData : Type := mkInputData {
  data_source : DataSource;
  time_interval : string * string;
  mosaicking_order : string
}.

(** Modelled from the call in the source: a [SentinelHubRequest] is the
    record of the keyword arguments it is built from.  The class is the
    imagery client's, not part of this repository: the checks its
    constructor makes on these arguments, such as the order of the two days
    of a window, are not part of the record. *)
Record SentinelHubRequest (num Config : Type) : Type := mkSentinelHubRequest {
  data_folder : string;
  request_evalscript : string;
  input_data : list InputData;
  responses : list (string * MimeType);
  request_bbox : BBox num;
  request_size : Z * Z;
  request_config : Config
}.

Section RequestForSavingPicture.
Context {num Config : Type}.

(** [str(d).split()[0]]: the text [YYYY-MM-DD] of the day of ordinal [d]. *)
Variable day_str : date -> string.

(** The window of the request, or [None] when no branch assigns it. *)
Definition request_time_interval (d : date) (time : string) (interval : Z)
  : outcome (option (string * string)) :=
  if String.eqb time "now" then
    if (interval =? 1)%Z then
      let a := day_str d in
      b <~ date_add d one_day ;;
      Return (Some (a, day_str b))
    else if (interval mod 2 =? 0)%Z then
      t <~ timedelta_rmul (int_half interval) one_day ;;
      a <~ date_sub d t ;;
      t <~ timedelta_rmul (int_half (interval + 1)) one_day ;;
      b <~ date_add d t ;;
      Return (Some (day_str a, day_str b))
    else
      t <~ timedelta_rmul (int_half interval) one_day ;;
      a <~ date_sub d t ;;
      t <~ timedelta_rmul (int_half interval) one_day ;;
      b <~ date_add d t ;;
      Return (Some (day_str a, day_str b))
  else if String.eqb time "after" then
    a <~ date_add d one_day ;;
    t <~ timedelta_rmul interval one_day ;;
    b <~ date_add d t ;;
    Return (Some (day_str a, day_str b))
  else if String.eqb time "before" then
    a <~ date_sub d one_day ;;
    t <~ timedelta_rmul interval one_day ;;
    b <~ date_sub d t ;;
    Return (Some (day_str a, day_str b))
  else Return None.

Definition get_request_for_saving_picture (box : BBox num) (box_size : Z * Z)
    (config : Config) (evalscript : string) (d : date) (folder : string)
    (time : string) (interval : Z) : outcome (SentinelHubRequest num Config) :=
  assigned <~ request_time_interval d time interval ;;
  match assigned with
  | None => Throw UnboundLocalError
  | Some window =>
      Return (mkSentinelHubRequest folder evalscript
                [mkInputData SENTINEL2_L1C window "leastCC"]
                [("default", TIFF)]
                box box_size config)
  end.
End RequestForSavingPicture.

(** *** Tiles *)

(** The values of the dictionaries the catalogue yields. *)
#[warnings="-register-all"]
Inductive json : Type :=
| JNull
| JBool (b : bool)
| JNum (z : Z)
| JStr (s : string)
| JArr (l : list json)
| JObj (m : gmap string json).

(** [j[k]] for a string key [k]. *)
Definition json_getitem (j : json) (k : string) : outcome json :=
  match j with
  | JObj m =>
      match m !! k with
      | Some v => Return v
      | None => Throw KeyError
      end
  | _ => Throw TypeError
  end.

(** [tile_info['properties']['date']]. *)
Definition tile_date (tile_info : json) : outcome json :=
  properties <~ json_getitem tile_info "properties" ;;
  json_getitem properties "date".

(** The dates of a list of tiles, in order; the first tile without one
    decides the exception. *)
Fixpoint tile_dates (tiles : list json) : outcome (list json) :=
  match tiles with
  | [] => Return []
  | tile_info :: rest =>
      d <~ tile_date tile_info ;;
      ds <~ tile_dates rest ;;
      Return (d :: ds)
  end.

(** A tile as the catalogue describes a capture of a given day. *)
Definition tile_of_day (day : string) : json :=
  JObj (<["type" := JStr "Feature"]>
        (<["properties" := JObj (<["date" := JStr day]> ∅)]> ∅)).

Section AvailableDates.
Context {num Config : Type}.

(** The tiles the imagery client's [WebFeatureService] iterator yields. *)
Variable WebFeatureService :
  BBox num -> string * string -> DataSource -> num -> Config -> list json.

Definition get_available_dates (bbox : BBox num) (time_interval : string * string)
    (config : Config) (max_cc : num) : outcome (list json) :=
  let wfs_iterator := WebFeatureService bbox time_interval SENTINEL2_L1C max_cc config in
  let available_dates := [] in
  for_loop
    (fun available_dates tile_info =>
       d <~ tile_date tile_info ;;
       Return (available_dates ++ [d]))
    available_dates wfs_iterator.
End AvailableDates.

(** A stand-in for the rendering of a day, to run the request helper: the
    ordinal in decimal. *)
Definition ordinal_text (d : date) : string := pretty d.

(** Exchanging the two axes of a box and of a point. *)
Definition transpose_bbox {num : Type} (b : BBox num) : BBox num :=
  mkBBox (min_y b) (min_x b) (max_y b) (max_x b) (crs b).

Definition transpose_point {num : Type} (p : Point num) : Point num :=
  mkPoint (point_y p) (point_x p).

(** The half-plane to the right of a box, as a field: [contains] is true
    for the points beyond [max_x]. *)
Definition float_right_of (field : BBox float) (p : Point float) : bool :=
  (max_x field <? point_x p)%float.

(** A dimension capability over the reals that measures each extent of the
    box in pixels, extent over resolution, and rounds it with [rnd]. *)
Definition rounding_dimensions (rnd : R -> Z) (b : BBox R) (resolution : Z) : Z * Z :=
  (rnd ((max_x b - min_x b) / IZR resolution)%R,
   rnd ((max_y b - min_y b) / IZR resolution)%R).

(** [rnd] rounds to a nearest integer, ties either way. *)
Definition rounds_to_nearest (rnd : R -> Z) : Prop :=
  forall x : R, (Rabs (IZR (rnd x) - x) <= 1 / 2)%R.

(** Rounding half up: the floor of [x + 1/2]. *)
Definition round_half_up (x : R) : Z := (up (x + 1 / 2)%R - 1)%Z.

(** * Properties *)

Unset Implicit Arguments.

(** ** The operators *)

Section OperatorFacts.
Context {num : Type} `{Arith num}.

Lemma truediv_nonzero (x : num) (k : Z) :
  k <> 0%Z -> truediv x k = Ok (x / of_int k)%num.
Proof.
  intros Hk. unfold truediv.
  destruct (Z.eqb_spec k 0) as [E | _]; [contradiction | reflexivity].
Qed.

Lemma truediv_zero (x : num) : truediv x 0 = Raise ZeroDivisionError.
Proof. reflexivity. Qed.
End OperatorFacts.

(** ** Laws of the two instances *)

Lemma SFadd_comm (x y : spec_float) : SF64add x y = SF64add y x.
Proof.
  unfold SF64add, SFadd.
  destruct x as [sx | sx | | sx mx ex], y as [sy | sy | | sy my ey];
    try reflexivity;
    try (destruct sx, sy; reflexivity).
  rewrite (Z.min_comm ey ex). f_equal. apply Z.add_comm.
Qed.

Lemma float_add_comm (x y : float) : (x + y)%float = (y + x)%float.
Proof.
  apply Prim2SF_inj. rewrite !add_spec. apply SFadd_comm.
Qed.

#[export] Instance float_laws : ArithLaws float.
Proof. constructor. exact float_add_comm. Qed.

#[export] Instance R_laws : ArithLaws R.
Proof. constructor. exact Rplus_comm. Qed.

(** ** get_square_around_point *)

Section SquareFacts.
Context {num : Type} `{Arith num} `{Trig num}.

(** The function is a straight-line computation: no division in it can
    raise, since the two Python divisors are the literals [2] and
    [m_to_deg] and the third division is numpy's. *)
Lemma get_square_around_point_eq (lon lat m : num) :
  get_square_around_point lon lat m =
    Ok [(lon - lon_offset lat m)%num; (lat - lat_offset m)%num;
        (lon + lon_offset lat m)%num; (lat + lat_offset m)%num].
Proof. reflexivity. Qed.
End SquareFacts.

(** ** get_bbox_of_given_size *)

Lemma dims_eqb_eq (a b : Z * Z) : dims_eqb a b = true <-> a = b.
Proof.
  destruct a as [a1 a2], b as [b1 b2]. unfold dims_eqb. cbn.
  rewrite andb_true_iff, !Z.eqb_eq. split.
  - intros [-> ->]. reflexivity.
  - intros E. injection E as -> ->. split; reflexivity.
Qed.

Lemma dims_eqb_neq (a b : Z * Z) : dims_eqb a b = false <-> a <> b.
Proof.
  rewrite <- dims_eqb_eq. destruct (dims_eqb a b); split; congruence.
Qed.

Section BBoxFacts.
Context {num : Type} `{Arith num}.
Variable bbox_to_dimensions : BBox num -> Z -> Z * Z.

Lemma get_bbox_same (x_min y_min x_max y_max : num) (pix : Z * Z) (resolution : Z) :
  bbox_to_dimensions (mkBBox x_min y_min x_max y_max WGS84) resolution = pix ->
  get_bbox_of_given_size bbox_to_dimensions [x_min; y_min; x_max; y_max] pix resolution
    = Ok (mkBBox x_min y_min x_max y_max WGS84).
Proof.
  intros E. cbn. apply dims_eqb_eq in E. rewrite E. reflexivity.
Qed.

Lemma get_bbox_rescaled (x_min y_min x_max y_max : num) (pix : Z * Z) (resolution : Z) :
  let natural := bbox_to_dimensions (mkBBox x_min y_min x_max y_max WGS84) resolution in
  natural <> pix -> fst natural <> 0%Z -> snd natural <> 0%Z ->
  get_bbox_of_given_size bbox_to_dimensions [x_min; y_min; x_max; y_max] pix resolution
    = Ok (mkBBox x_min y_min
            (((x_max - x_min) * of_int (fst pix)) / of_int (fst natural) + x_min)%num
            (((y_max - y_min) * of_int (snd pix)) / of_int (snd natural) + y_min)%num
            WGS84).
Proof.
  intros natural Hne Hx Hy. cbn. fold natural.
  apply dims_eqb_neq in Hne. rewrite Hne.
  rewrite (truediv_nonzero _ _ Hx). cbn.
  rewrite (truediv_nonzero _ _ Hy). reflexivity.
Qed.

Lemma get_bbox_crs (coords : list num) (pix : Z * Z) (resolution : Z) (box : BBox num) :
  get_bbox_of_given_size bbox_to_dimensions coords pix resolution = Ok box ->
  crs box = WGS84.
Proof.
  unfold get_bbox_of_given_size.
  destruct coords as [| a [| b [| c [| d [| e rest]]]]]; try discriminate.
  destruct (dims_eqb _ pix).
  - intros E. injection E as <-. reflexivity.
  - destruct (truediv _ (fst _)); cbn; [| discriminate].
    destruct (truediv _ (snd _)); cbn; [| discriminate].
    intros E. injection E as <-. reflexivity.
Qed.

Context `{!ArithLaws num}.

(** C2: when the dimensions of the box at the resolution already are
    [pix], the box is returned as given; otherwise, the natural dimensions
    being nonzero, the returned box keeps [min_lon] and [min_lat] and has
    [new_max = min + (old_max - min) * target_dim / natural_dim] on each
    axis. *)
Theorem get_bbox_of_given_size_spec
    (min_lon min_lat max_lon max_lat : num) (pix : Z * Z) (resolution : Z) :
  let box := mkBBox min_lon min_lat max_lon max_lat WGS84 in
  let natural := bbox_to_dimensions box resolution in
  (natural = pix ->
     get_bbox_of_given_size bbox_to_dimensions
       [min_lon; min_lat; max_lon; max_lat] pix resolution = Ok box) /\
  (natural <> pix -> fst natural <> 0%Z -> snd natural <> 0%Z ->
     get_bbox_of_given_size bbox_to_dimensions
       [min_lon; min_lat; max_lon; max_lat] pix resolution
     = Ok (mkBBox min_lon min_lat
             (rescaled_max min_lon max_lon (fst pix) (fst natural))
             (rescaled_max min_lat max_lat (snd pix) (snd natural))
             WGS84)).
Proof.
  intros box natural. split.
  - apply get_bbox_same.
  - intros Hne Hx Hy. unfold rescaled_max.
    rewrite (add_comm min_lon), (add_comm min_lat).
    apply get_bbox_rescaled; assumption.
Qed.

(** Once the returned box has dimensions [pix], the function leaves it as
    it is: a second application with the same [pix] and resolution returns
    the same box. *)
Lemma get_bbox_of_given_size_fixpoint
    (coords : list num) (pix : Z * Z) (resolution : Z) (box : BBox num) :
  get_bbox_of_given_size bbox_to_dimensions coords pix resolution = Ok box ->
  bbox_to_dimensions box resolution = pix ->
  get_bbox_of_given_size bbox_to_dimensions (bbox_coords box) pix resolution = Ok box /\
  get_bbox_twice bbox_to_dimensions coords pix resolution = Ok box.
Proof.
  intros Hfirst Hdims.
  assert (Hagain : get_bbox_of_given_size bbox_to_dimensions (bbox_coords box)
                     pix resolution = Ok box).
  { pose proof (get_bbox_crs _ _ _ _ Hfirst) as Hcrs.
    destruct box as [a b c d k]. cbn in Hcrs. subst k.
    apply get_bbox_same. exact Hdims. }
  split; [exact Hagain |].
  unfold get_bbox_twice. rewrite Hfirst. exact Hagain.
Qed.
End BBoxFacts.

(** ** Arrays and loops *)

Lemma np_ndindex_elem (r c i j : nat) :
  In (i, j) (np_ndindex r c) <-> (i < r)%nat /\ (j < c)%nat.
Proof.
  unfold np_ndindex. rewrite in_flat_map. split.
  - intros [i' [Hi Hj]]. apply in_seq in Hi. apply in_map_iff in Hj.
    destruct Hj as [j' [E Hj']]. apply in_seq in Hj'.
    injection E as -> ->. lia.
  - intros [Hi Hj]. exists i. split.
    + apply in_seq. lia.
    + apply in_map_iff. exists j. split; [reflexivity | apply in_seq; lia].
Qed.

Lemma np_ndindex_in_range (r c : nat) :
  Forall (fun ij => (fst ij < r)%nat /\ (snd ij < c)%nat) (np_ndindex r c).
Proof.
  apply List.Forall_forall. intros [i j] Hin. apply np_ndindex_elem in Hin. exact Hin.
Qed.

Lemma flat_index_inj (c i j i' j' : nat) :
  (j < c)%nat -> (j' < c)%nat -> (i * c + j = i' * c + j')%nat -> i = i' /\ j = j'.
Proof.
  intros Hj Hj' E. apply (Nat.div_mod_unique c i i' j j' Hj Hj'). lia.
Qed.

Section AssignAll.
Context {A : Type} (c : nat) (f : nat -> nat -> A).

Lemma assign_all_length (idxs : list (nat * nat)) (d : list A) :
  length (assign_all c f idxs d) = length d.
Proof.
  revert d. induction idxs as [| ij idxs IH]; intros d; cbn; [reflexivity |].
  unfold assign_all in IH. rewrite IH. apply length_insert.
Qed.

(** A cell holds [f i j] once [(i, j)] has been assigned, and its first
    value otherwise. *)
Lemma assign_all_lookup (idxs : list (nat * nat)) (d : list A) (i j : nat) :
  (j < c)%nat ->
  Forall (fun ij => (snd ij < c)%nat) idxs ->
  (i * c + j < length d)%nat ->
  (In (i, j) idxs -> assign_all c f idxs d !! (i * c + j)%nat = Some (f i j)) /\
  (~ In (i, j) idxs -> assign_all c f idxs d !! (i * c + j)%nat = d !! (i * c + j)%nat).
Proof.
  intros Hj Hidx. revert d.
  induction Hidx as [| [i0 j0] idxs Hj0 _ IH]; intros d Hlen.
  - split; [intros [] | reflexivity].
  - cbn in Hj0. cbn [assign_all fold_left fst snd].
    specialize (IH (<[(i0 * c + j0)%nat := f i0 j0]> d)).
    rewrite length_insert in IH. specialize (IH Hlen).
    destruct IH as [IHin IHout]. unfold assign_all in IHin, IHout.
    destruct (in_dec (fun a b : nat * nat => decide (a = b)) (i, j) idxs)
      as [Hin | Hnin].
    + split.
      * intros _. apply IHin. exact Hin.
      * intros Hno. exfalso. apply Hno. right. exact Hin.
    + split.
      * intros [E | Hin]; [| contradiction].
        injection E as -> ->. rewrite (IHout Hnin).
        apply list_lookup_insert_eq. exact Hlen.
      * intros Hno. rewrite (IHout Hnin).
        apply list_lookup_insert_ne. intros E.
        apply flat_index_inj in E; [| assumption ..].
        destruct E as [-> ->]. apply Hno. left. reflexivity.
Qed.
End AssignAll.

(** ** get_field_pixels *)

Section FieldPixelsFacts.
Context {num : Type} `{Arith num}.
Variable Polygon : Type.
Variable contains : Polygon -> Point num -> bool.

Lemma pixel_step_eq (mask : ndarray bool) (n_x n_y : nat) (bbox : BBox num)
    (field : Polygon) (i j : nat) :
  n_x <> 0%nat -> n_y <> 0%nat ->
  pixel_step contains mask n_x n_y (max_x bbox - min_x bbox)%num
    (max_y bbox - min_y bbox)%num bbox field (i, j)
  = setitem2 mask i j (cell_value contains n_x n_y bbox field i j).
Proof.
  intros Hx Hy. unfold pixel_step.
  rewrite truediv_nonzero by lia. cbn [bind].
  rewrite truediv_nonzero by lia. reflexivity.
Qed.

Lemma for_each_pixel_step (r c : nat) (bbox : BBox num) (field : Polygon)
    (idxs : list (nat * nat)) (d : list bool) :
  Forall (fun ij => (fst ij < r)%nat /\ (snd ij < c)%nat) idxs ->
  for_each
    (fun mask ij =>
       pixel_step contains mask r c (max_x bbox - min_x bbox)%num
         (max_y bbox - min_y bbox)%num bbox field ij)
    (mk_ndarray [r; c] d) idxs
  = Ok (mk_ndarray [r; c] (assign_all c (cell_value contains r c bbox field) idxs d)).
Proof.
  intros Hidx. revert d.
  induction Hidx as [| [i j] idxs [Hi Hj] _ IH]; intros d; [reflexivity |].
  cbn in Hi, Hj. cbn [for_each].
  rewrite pixel_step_eq by lia.
  unfold setitem2. cbn [shape data].
  destruct (Nat.ltb_spec i r) as [_ | ?]; [| lia].
  destruct (Nat.ltb_spec j c) as [_ | ?]; [| lia].
  cbn [andb bind]. rewrite IH. reflexivity.
Qed.

(** The run of the function on an image of at least two dimensions. *)
Lemma get_field_pixels_run (img : ndarray num) (bbox : BBox num) (field : Polygon)
    (rows cols : nat) (rest : list nat) :
  shape img = rows :: cols :: rest ->
  get_field_pixels contains img bbox field
  = Ok (mk_ndarray [rows; cols]
          (assign_all cols (cell_value contains rows cols bbox field)
             (np_ndindex rows cols) (replicate (rows * cols) false))).
Proof.
  intros Hshape. unfold get_field_pixels. rewrite Hshape. cbn.
  apply for_each_pixel_step. apply np_ndindex_in_range.
Qed.

Lemma mask_cell (rows cols : nat) (bbox : BBox num) (field : Polygon) (i j : nat) :
  (i < rows)%nat -> (j < cols)%nat ->
  assign_all cols (cell_value contains rows cols bbox field) (np_ndindex rows cols)
    (replicate (rows * cols) false) !! (i * cols + j)%nat
  = Some (cell_value contains rows cols bbox field i j).
Proof.
  intros Hi Hj.
  apply assign_all_lookup.
  - exact Hj.
  - eapply List.Forall_impl; [| apply (np_ndindex_in_range rows cols)].
    intros ij [_ Hc]. exact Hc.
  - rewrite length_replicate. nia.
  - apply np_ndindex_elem. split; assumption.
Qed.

(** Every element of the mask is the value of some cell. *)
Lemma mask_elements (rows cols : nat) (bbox : BBox num) (field : Polygon)
    (P : bool -> Prop) :
  (forall i j, (i < rows)%nat -> (j < cols)%nat ->
               P (cell_value contains rows cols bbox field i j)) ->
  Forall P (assign_all cols (cell_value contains rows cols bbox field) (np_ndindex rows cols)
              (replicate (rows * cols) false)).
Proof.
  intros HP. apply Forall_lookup_2. intros k v Hk.
  pose proof (lookup_lt_Some _ _ _ Hk) as Hlt.
  rewrite assign_all_length, length_replicate in Hlt.
  assert (Hc : (0 < cols)%nat) by nia.
  assert (Hj : (k mod cols < cols)%nat) by (apply Nat.mod_upper_bound; lia).
  assert (Hi : (k / cols < rows)%nat) by (apply Nat.Div0.div_lt_upper_bound; lia).
  assert (Ek : k = (k / cols * cols + k mod cols)%nat).
  { rewrite Nat.mul_comm. apply Nat.div_mod_eq. }
  rewrite Ek in Hk. rewrite (mask_cell rows cols bbox field _ _ Hi Hj) in Hk.
  injection Hk as <-. apply HP; assumption.
Qed.

(** An image of fewer than two dimensions: [img.shape[1]] raises. *)
Lemma get_field_pixels_flat_image (img : ndarray num) (bbox : BBox num) (field : Polygon) :
  (length (shape img) < 2)%nat ->
  get_field_pixels contains img bbox field = Raise IndexError.
Proof.
  intros Hlen. unfold get_field_pixels.
  destruct (shape img) as [| r [| c rest]]; cbn in *; [reflexivity | reflexivity | lia].
Qed.

(** C3: on an image whose shape starts with [rows, cols], the function
    returns a mask in which cell [(i, j)] is the answer of [contains] (true
    exactly for the points of the interior of the polygon) at the point
    [x = min_lon + (2i+1) * (max_lon - min_lon) / (2 * rows)],
    [y = min_lat + (2j+1) * (max_lat - min_lat) / (2 * cols)]: the row
    index runs along the longitude and the column index along the
    latitude. *)
Theorem get_field_pixels_spec (img : ndarray num) (bbox : BBox num) (field : Polygon)
    (rows cols : nat) (rest : list nat) :
  shape img = rows :: cols :: rest ->
  exists mask,
    get_field_pixels contains img bbox field = Ok mask /\
    forall i j, (i < rows)%nat -> (j < cols)%nat ->
      getitem2 mask i j = Ok (contains field (pixel_center rows cols bbox i j)).
Proof.
  intros Hshape. eexists. split; [apply (get_field_pixels_run _ _ _ _ _ _ Hshape) |].
  intros i j Hi Hj. unfold getitem2. cbn [shape data].
  destruct (Nat.ltb_spec i rows) as [_ | ?]; [| lia].
  destruct (Nat.ltb_spec j cols) as [_ | ?]; [| lia].
  cbn [andb]. unfold tuple_getitem.
  rewrite (mask_cell rows cols bbox field i j Hi Hj). reflexivity.
Qed.

(** C8: the mask has the shape [(rows, cols)] of the first two dimensions
    of the image, and that many elements, whatever the polygon. *)
Theorem get_field_pixels_shape (img : ndarray num) (bbox : BBox num) (field : Polygon)
    (rows cols : nat) (rest : list nat) :
  shape img = rows :: cols :: rest ->
  exists mask,
    get_field_pixels contains img bbox field = Ok mask /\
    shape mask = [rows; cols] /\
    length (data mask) = (rows * cols)%nat.
Proof.
  intros Hshape. eexists. split; [apply (get_field_pixels_run _ _ _ _ _ _ Hshape) |].
  cbn [shape data]. split; [reflexivity |].
  rewrite assign_all_length. apply length_replicate.
Qed.

(** C10: the result depends on the image only through the first two
    entries of its shape: two images that agree on them give the same
    result, whatever their pixels and their further dimensions. *)
Theorem get_field_pixels_shape_only (img1 img2 : ndarray num) (bbox : BBox num)
    (field : Polygon) :
  shape img1 !! 0%nat = shape img2 !! 0%nat ->
  shape img1 !! 1%nat = shape img2 !! 1%nat ->
  get_field_pixels contains img1 bbox field = get_field_pixels contains img2 bbox field.
Proof.
  intros H0 H1. unfold get_field_pixels, tuple_getitem.
  rewrite H0, H1. reflexivity.
Qed.
End FieldPixelsFacts.

(** *** binary64 *)

Module Binary64.
Local Open Scope float_scope.

Section WithCos.
Variable libm_cos : float -> float.

#[local] Instance trig : Trig float := float_trig libm_cos.

Lemma deg2rad_zero : np_deg2rad 0 = 0.
Proof. reflexivity. Qed.

Lemma lon_offset_equator (m : float) :
  libm_cos 0 = 1 -> lon_offset 0 m = lat_offset m.
Proof.
  intros Hcos. unfold lon_offset, lat_offset, np_divide. cbn [np_cos trig float_trig].
  rewrite deg2rad_zero, Hcos. reflexivity.
Qed.

(** C9: at latitude 0 the box has the same offset, in degrees, east-west
    as north-south (libm's [cos 0] is [1]); a side of 111111 m around
    (0, 0) gives [[-0.5; -0.5; 0.5; 0.5]]. *)
Theorem get_square_around_point_equator :
  libm_cos 0 = 1 ->
  (forall m : float, lon_offset 0 m = lat_offset m) /\
  (forall lon m : float,
      get_square_around_point lon 0 m =
        Ok [lon - lat_offset m; 0 - lat_offset m;
            lon + lat_offset m; 0 + lat_offset m]) /\
  get_square_around_point 0 0 111111 = Ok [-0.5; -0.5; 0.5; 0.5].
Proof.
  intros Hcos. split; [| split].
  - intros m. exact (lon_offset_equator m Hcos).
  - intros lon m. rewrite get_square_around_point_eq.
    rewrite (lon_offset_equator m Hcos). reflexivity.
  - rewrite get_square_around_point_eq.
    rewrite (lon_offset_equator _ Hcos). reflexivity.
Qed.

(** C4 (amended): at latitude 90 and -90 the function raises nothing.
    It returns [[lon - d; lat - h; lon + d; lat + h]] where the longitude
    offset [d] is the IEEE quotient of the half side by
    [m_to_deg * cos (deg2rad lat)]. *)
Theorem get_square_around_point_poles (lon m : float) :
  get_square_around_point lon 90 m =
    Ok [lon - lon_offset 90 m; 90 - lat_offset m;
        lon + lon_offset 90 m; 90 + lat_offset m] /\
  get_square_around_point lon (-90) m =
    Ok [lon - lon_offset (-90) m; -90 - lat_offset m;
        lon + lon_offset (-90) m; -90 + lat_offset m].
Proof. split; reflexivity. Qed.
End WithCos.

(** The order of binary64 is transitive. *)
Lemma SFleb_trans (a b c : spec_float) :
  SFleb a b = true -> SFleb b c = true -> SFleb a c = true.
Proof.
  unfold SFleb, SFcompare.
  destruct a as [sa | sa | | sa ma ea], b as [sb | sb | | sb mb eb],
           c as [sc | sc | | sc mc ec];
    try discriminate; try reflexivity;
    try (destruct sa, sb, sc; (discriminate || reflexivity)).
  all: change (Pos.compare_cont Eq) with Pos.compare.
  all: destruct sa, sb, sc; try discriminate; try reflexivity.
  all: destruct (Z.compare_spec ea eb), (Z.compare_spec eb ec), (Z.compare_spec ea ec);
    try lia; try discriminate; try reflexivity; subst.
  all: destruct (Pos.compare_spec ma mb), (Pos.compare_spec mb mc),
         (Pos.compare_spec ma mc);
    cbn; try lia; try discriminate; try reflexivity.
Qed.

Lemma leb_trans (x y z : float) :
  (x <=? y) = true -> (y <=? z) = true -> (x <=? z) = true.
Proof. rewrite !leb_spec. apply SFleb_trans. Qed.

Lemma filter_length_mono {A : Type} (p q : A -> bool) (l : list A) :
  (forall a, p a = true -> q a = true) ->
  (length (List.filter p l) <= length (List.filter q l))%nat.
Proof.
  intros Hpq. induction l as [| a l IH]; cbn; [lia |].
  destruct (p a) eqn:Hp.
  - rewrite (Hpq a Hp). cbn. lia.
  - destruct (q a); cbn; lia.
Qed.

Lemma float_rounded_dim_mono (w1 w2 : float) (resolution : Z) :
  (w1 <=? w2) = true ->
  (float_rounded_dim w1 resolution <= float_rounded_dim w2 resolution)%Z.
Proof.
  intros Hw. unfold float_rounded_dim. apply inj_le.
  apply filter_length_mono. intros k Hk. exact (leb_trans _ _ _ Hk Hw).
Qed.

Lemma float_rounded_dimensions_monotonic : monotonic_dimensions float_rounded_dimensions.
Proof.
  intros b1 b2 resolution Hx Hy. unfold float_rounded_dimensions. cbn [fst snd].
  split; apply float_rounded_dim_mono; assumption.
Qed.

Lemma get_bbox_of_given_size_spec_witness :
  get_bbox_of_given_size float_rounded_dimensions [0; 0; 5; 5] (5, 5)%Z 1
    = Ok (mkBBox 0 0 5 5 WGS84) /\
  get_bbox_of_given_size float_rounded_dimensions [0; 0; 0.65625; 0.65625] (10, 10)%Z 1
    = Ok (mkBBox 0 0 (rescaled_max 0 0.65625 10 1) (rescaled_max 0 0.65625 10 1) WGS84).
Proof.
  split.
  - apply (proj1 (get_bbox_of_given_size_spec float_rounded_dimensions
                    0 0 5 5 (5, 5)%Z 1)).
    reflexivity.
  - apply (proj2 (get_bbox_of_given_size_spec float_rounded_dimensions
                    0 0 0.65625 0.65625 (10, 10)%Z 1));
      vm_compute; congruence.
Defined.


(** A positive number over zero is plus infinity. *)
Lemma div_pos_zero (x : float) : (0 <? x) = true -> x / 0 = infinity.
Proof.
  intros Hx. apply Prim2SF_inj. rewrite div_spec. rewrite ltb_spec in Hx.
  replace (Prim2SF 0) with (S754_zero false) in * by reflexivity.
  replace (Prim2SF infinity) with (S754_infinity false) by reflexivity.
  destruct (Prim2SF x) as [s | s | | s mx ex]; try discriminate;
    destruct s; try discriminate; reflexivity.
Qed.

(** Under the premise that the cosine is exactly zero, the longitude offset
    of a square of positive half side is plus infinity: no exception. *)
Lemma lon_offset_zero_cos (libm_cos : float -> float) (lat m : float) :
  libm_cos (@np_deg2rad float _ (float_trig libm_cos) lat) = 0 ->
  (0 <? m / 2) = true ->
  @lon_offset float _ (float_trig libm_cos) lat m = infinity.
Proof.
  intros Hcos Hm. unfold lon_offset, np_divide. cbn [np_cos float_trig].
  rewrite Hcos.
  replace (@mul float float_arith (of_int m_to_deg) 0) with 0%float by reflexivity.
  exact (div_pos_zero _ Hm).
Qed.

(** A box under half a pixel wide and high has natural dimensions of zero,
    and the rescaling raises. *)
Lemma get_bbox_zero_dimension :
  float_rounded_dimensions (mkBBox 0 0 0.25 0.25 WGS84) 1 = (0, 0)%Z /\
  get_bbox_of_given_size float_rounded_dimensions [0; 0; 0.25; 0.25] (10, 10)%Z 1
    = Raise ZeroDivisionError.
Proof. split; reflexivity. Qed.

(** A run of the rasteriser: a 2 x 3 image over the box [0, 2] x [0, 3], the
    field being the rectangle [0, 1] x [0, 3]: the first row is inside. *)
Lemma get_field_pixels_run_example :
  get_field_pixels float_rectangle_contains
    (mk_ndarray [2; 3]%nat [1; 2; 3; 4; 5; 6])
    (mkBBox 0 0 2 3 WGS84) (mkBBox 0 0 1 3 WGS84)
  = Ok (mk_ndarray [2; 3]%nat [true; true; true; false; false; false]).
Proof. reflexivity. Qed.

(** C4 (counterexample): a 100 m square around (10, 90) and around
    (10, -90) is returned, whatever libm's cosine answers; were the cosine
    exactly zero, the longitude bounds would be the two infinities. *)
Lemma get_square_around_point_pole_returns :
  (forall libm_cos : float -> float, exists box,
      @get_square_around_point float _ (float_trig libm_cos) 10 90 100 = Ok box) /\
  (forall libm_cos : float -> float, exists box,
      @get_square_around_point float _ (float_trig libm_cos) 10 (-90) 100 = Ok box) /\
  @get_square_around_point float _ (float_trig (fun _ => 0)) 10 90 100
    = Ok [neg_infinity; 90 - lat_offset 100; infinity; 90 + lat_offset 100].
Proof.
  split; [| split].
  - intros libm_cos. eexists. apply get_square_around_point_eq.
  - intros libm_cos. eexists. apply get_square_around_point_eq.
  - reflexivity.
Qed.

(** Rounding shows in the last place: for a 250 km square around longitude
    0, latitude 0.875, whatever the cosine, the latitude bounds are
    [0.875 - h] and [0.875 + h] rounded, and their midpoint is the double
    next to 0.875. *)
Lemma get_square_around_point_midpoint_rounds :
  exists y_min y_max : float,
    (forall libm_cos : float -> float, exists x_min x_max,
        @get_square_around_point float _ (float_trig libm_cos) 0 0.875 250000
          = Ok [x_min; y_min; x_max; y_max]) /\
    (-90 <? 0.875) = true /\ (0.875 <? 90) = true /\ (0 <? 250000) = true /\
    (y_min <? y_max) = true /\
    ((y_min + y_max) / 2 =? 0.875) = false.
Proof.
  exists (0.875 - lat_offset 250000), (0.875 + lat_offset 250000).
  split.
  - intros libm_cos. do 2 eexists. reflexivity.
  - repeat split; reflexivity.
Qed.

(** C1 (counterexample): a square of side 1e-10 m around longitude 10,
    latitude 45.  Whatever the cosine, both latitude bounds round to 45;
    with a cosine that returns 0.7071067811865476 for 45 degrees, as libm's
    does, both longitude bounds round to 10.  The box is
    [[10; 45; 10; 45]]: [min < max] is false on both axes.  And for a side
    of 2^200 m the latitude bounds are [-h] and [h], the latitude being
    absorbed by the rounding: their midpoint is 0, not 45. *)
Lemma get_square_around_point_collapses :
  (-90 <? 45) = true /\ (45 <? 90) = true /\
  (0 <? 0x1.b7cdfd9d7bdbbp-34) = true /\ (0 <? 0x1p+200) = true /\
  (forall libm_cos : float -> float, exists x_min x_max,
      @get_square_around_point float _ (float_trig libm_cos)
        10 45 0x1.b7cdfd9d7bdbbp-34
      = Ok [x_min; 45; x_max; 45]) /\
  (forall libm_cos : float -> float,
      libm_cos (@np_deg2rad float _ (float_trig libm_cos) 45)
        = 0x1.6a09e667f3bcdp-1 ->
      @get_square_around_point float _ (float_trig libm_cos)
        10 45 0x1.b7cdfd9d7bdbbp-34
      = Ok [10; 45; 10; 45]) /\
  (10 <? 10) = false /\ (45 <? 45) = false /\
  (forall libm_cos : float -> float, exists x_min x_max,
      @get_square_around_point float _ (float_trig libm_cos) 10 45 0x1p+200
      = Ok [x_min; - lat_offset 0x1p+200; x_max; lat_offset 0x1p+200]) /\
  ((- lat_offset 0x1p+200 + lat_offset 0x1p+200) / 2 =? 45) = false.
Proof.
  repeat split; try reflexivity.
  - intros libm_cos. do 2 eexists. reflexivity.
  - intros libm_cos Hcos. rewrite get_square_around_point_eq.
    unfold lon_offset, np_divide. cbn [np_cos float_trig]. rewrite Hcos.
    reflexivity.
  - intros libm_cos. do 2 eexists. reflexivity.
Qed.

Lemma get_square_around_point_equator_witness :
  (forall m : float,
      @lon_offset float _ (float_trig float_cos_poly) 0 m = lat_offset m) /\
  (forall lon m : float,
      @get_square_around_point float _ (float_trig float_cos_poly) lon 0 m =
        Ok [lon - lat_offset m; 0 - lat_offset m;
            lon + lat_offset m; 0 + lat_offset m]) /\
  @get_square_around_point float _ (float_trig float_cos_poly) 0 0 111111
    = Ok [-0.5; -0.5; 0.5; 0.5].
Proof.
  apply (get_square_around_point_equator float_cos_poly). reflexivity.
Defined.

(** An open rectangle is covered by itself. *)
Lemma float_rectangle_covers (b : BBox float) :
  covers_bbox float_rectangle_contains b b.
Proof.
  intros p. unfold float_rectangle_contains, strictly_inside. cbn [lt float_order].
  rewrite !andb_true_iff. tauto.
Qed.

Lemma get_field_pixels_spec_witness :
  exists mask,
    get_field_pixels float_rectangle_contains
      (mk_ndarray [2; 3]%nat [1; 2; 3; 4; 5; 6])
      (mkBBox 0 0 2 3 WGS84) (mkBBox 0 0 1 3 WGS84) = Ok mask /\
    forall i j, (i < 2)%nat -> (j < 3)%nat ->
      getitem2 mask i j =
        Ok (float_rectangle_contains (mkBBox 0 0 1 3 WGS84)
              (pixel_center 2 3 (mkBBox 0 0 2 3 WGS84) i j)).
Proof.
  apply (get_field_pixels_spec (BBox float) float_rectangle_contains
           (mk_ndarray [2; 3]%nat [1; 2; 3; 4; 5; 6])
           (mkBBox 0 0 2 3 WGS84) (mkBBox 0 0 1 3 WGS84) 2 3 []).
  reflexivity.
Defined.

Lemma get_field_pixels_shape_witness :
  exists mask,
    get_field_pixels float_rectangle_contains
      (mk_ndarray [2; 3; 1]%nat [1; 2; 3; 4; 5; 6])
      (mkBBox 0 0 2 3 WGS84) (mkBBox 0 0 1 3 WGS84) = Ok mask /\
    shape mask = [2; 3]%nat /\
    length (data mask) = (2 * 3)%nat.
Proof.
  apply (get_field_pixels_shape (BBox float) float_rectangle_contains
           (mk_ndarray [2; 3; 1]%nat [1; 2; 3; 4; 5; 6])
           (mkBBox 0 0 2 3 WGS84) (mkBBox 0 0 1 3 WGS84) 2 3 [1%nat]).
  reflexivity.
Defined.

Lemma get_field_pixels_shape_only_witness :
  get_field_pixels float_rectangle_contains
    (mk_ndarray [2; 3]%nat [1; 2; 3; 4; 5; 6])
    (mkBBox 0 0 2 3 WGS84) (mkBBox 0 0 1 3 WGS84)
  = get_field_pixels float_rectangle_contains
      (mk_ndarray [2; 3; 2]%nat [9; 9; 9; 9; 9; 9; 8; 8; 8; 8; 8; 8])
      (mkBBox 0 0 2 3 WGS84) (mkBBox 0 0 1 3 WGS84).
Proof.
  apply (get_field_pixels_shape_only (BBox float) float_rectangle_contains
           (mk_ndarray [2; 3]%nat [1; 2; 3; 4; 5; 6])
           (mk_ndarray [2; 3; 2]%nat [9; 9; 9; 9; 9; 9; 8; 8; 8; 8; 8; 8])
           (mkBBox 0 0 2 3 WGS84) (mkBBox 0 0 1 3 WGS84));
    reflexivity.
Defined.

(** C6 (counterexample): a box one unit in the last place wide, from 100 to
    the next double, covered by its own rectangle, on a two-row image.
    Both pixel centres round onto the edges of the box, which are not in
    the interior: the mask is all false. *)
Lemma get_field_pixels_thin_box :
  (100 <? 0x1.9000000000001p+6) = true /\ (0 <? 1) = true /\
  covers_bbox float_rectangle_contains
    (mkBBox 100 0 0x1.9000000000001p+6 1 WGS84)
    (mkBBox 100 0 0x1.9000000000001p+6 1 WGS84) /\
  get_field_pixels float_rectangle_contains (mk_ndarray [2; 1]%nat [7; 7])
    (mkBBox 100 0 0x1.9000000000001p+6 1 WGS84)
    (mkBBox 100 0 0x1.9000000000001p+6 1 WGS84)
  = Ok (mk_ndarray [2; 1]%nat [false; false]) /\
  ~ all_true (mk_ndarray [2; 1]%nat [false; false]).
Proof.
  split; [reflexivity |]. split; [reflexivity |].
  split; [apply float_rectangle_covers |].
  split; [reflexivity |].
  unfold all_true. cbn [data]. intros Hall.
  apply List.Forall_inv in Hall. discriminate.
Qed.

(** No double is both strictly below and at least another. *)
Lemma SFltb_leb_absurd (a b : spec_float) :
  SFltb a b = true -> SFleb b a = true -> False.
Proof.
  unfold SFltb, SFleb, SFcompare.
  destruct a as [sa | sa | | sa ma ea], b as [sb | sb | | sb mb eb];
    try discriminate;
    try (destruct sa, sb; discriminate).
  all: change (Pos.compare_cont Eq) with Pos.compare.
  all: destruct sa, sb; try discriminate.
  all: rewrite (Z.compare_antisym ea eb);
    destruct (Z.compare_spec ea eb); cbn; try discriminate.
  all: rewrite (Pos.compare_antisym ma mb);
    destruct (Pos.compare_spec ma mb); cbn; discriminate.
Qed.

Lemma ltb_leb_absurd (x y : float) :
  (x <? y) = true -> (y <=? x) = true -> False.
Proof. rewrite ltb_spec, leb_spec. apply SFltb_leb_absurd. Qed.

(** The half-plane beyond the right edge of a box has no point in the closed
    rectangle of the box. *)
Lemma float_right_of_apart (b : BBox float) : outside_bbox float_right_of b b.
Proof.
  intros p Hp [_ [Hle _]]. unfold float_right_of in Hp. cbn [le float_order] in Hle.
  exact (ltb_leb_absurd _ _ Hp Hle).
Qed.


End Binary64.

(** *** exact arithmetic *)

Module Exact.
Local Open Scope R_scope.

Lemma cos_deg2rad_pos (lat : R) : -90 < lat < 90 -> 0 < np_cos (np_deg2rad lat).
Proof.
  intros [Hlo Hhi]. unfold np_deg2rad. cbn.
  pose proof PI_RGT_0 as Hpi.
  apply cos_gt_0.
  - replace (- (PI / 2)) with ((-90) * (PI / 180)) by field.
    apply Rmult_lt_compat_r; lra.
  - replace (PI / 2) with (90 * (PI / 180)) by field.
    apply Rmult_lt_compat_r; lra.
Qed.

Lemma lon_offset_pos (lat m : R) : -90 < lat < 90 -> 0 < m -> 0 < lon_offset lat m.
Proof.
  intros Hlat Hm. unfold lon_offset, np_divide. cbn [div mul of_int R_arith].
  pose proof (cos_deg2rad_pos lat Hlat) as Hcos.
  apply Rdiv_lt_0_compat.
  - lra.
  - apply Rmult_lt_0_compat; [unfold m_to_deg; lra | exact Hcos].
Qed.

Lemma lat_offset_pos (m : R) : 0 < m -> 0 < lat_offset m.
Proof.
  intros Hm. unfold lat_offset, m_to_deg. cbn.
  apply Rdiv_lt_0_compat; lra.
Qed.

(** At latitude 0, over the reals, the box is as wide as it is high. *)
Lemma get_square_around_point_equator_exact (lon m : R) :
  get_square_around_point lon 0 m =
    Ok [lon - lat_offset m; 0 - lat_offset m; lon + lat_offset m; 0 + lat_offset m].
Proof.
  rewrite get_square_around_point_eq. cbn [add sub R_arith].
  assert (E : lon_offset 0 m = lat_offset m).
  { unfold lon_offset, lat_offset, np_divide, np_deg2rad.
    cbn [np_cos np_pi R_trig mul div of_int R_arith].
    rewrite Rmult_0_l, cos_0, Rmult_1_r. reflexivity. }
  rewrite E. reflexivity.
Qed.

(** The pixel centres divide each side in the ratios 1 : 2n-1, 3 : 2n-3,
    ..., all strictly between the two ends. *)
Lemma center_ratio (k n : nat) (len : R) :
  (k < n)%nat ->
  exists q : R,
    q = IZR (2 * Z.of_nat k + 1) * len / IZR (2 * Z.of_nat n) /\
    (0 < len -> 0 < q < len) /\ (0 <= len -> 0 <= q <= len).
Proof.
  intros Hk. eexists. split; [reflexivity |].
  set (a := IZR (2 * Z.of_nat k + 1)). set (b := IZR (2 * Z.of_nat n)).
  assert (Ha : 0 < a) by (apply IZR_lt; lia).
  assert (Hab : a < b) by (apply IZR_lt; lia).
  set (q := a * len / b).
  assert (Eq : q * b = a * len) by (unfold q; field; lra).
  split; intros Hlen; split; nra.
Qed.

Section Masks.
Variable Polygon : Type.
Variable contains : Polygon -> Point R -> bool.

Lemma pixel_center_strictly_inside (rows cols : nat) (bbox : BBox R) (i j : nat) :
  (i < rows)%nat -> (j < cols)%nat ->
  min_x bbox < max_x bbox -> min_y bbox < max_y bbox ->
  strictly_inside bbox (pixel_center rows cols bbox i j).
Proof.
  intros Hi Hj Hx Hy. unfold strictly_inside, pixel_center.
  cbn [point_x point_y lt R_order add sub mul div of_int R_arith].
  destruct (center_ratio i rows (max_x bbox - min_x bbox) Hi) as [qx [-> [Hqx _]]].
  destruct (center_ratio j cols (max_y bbox - min_y bbox) Hj) as [qy [-> [Hqy _]]].
  lra.
Qed.

Lemma pixel_center_within (rows cols : nat) (bbox : BBox R) (i j : nat) :
  (i < rows)%nat -> (j < cols)%nat ->
  min_x bbox <= max_x bbox -> min_y bbox <= max_y bbox ->
  within bbox (pixel_center rows cols bbox i j).
Proof.
  intros Hi Hj Hx Hy. unfold within, pixel_center.
  cbn [point_x point_y le R_order add sub mul div of_int R_arith].
  destruct (center_ratio i rows (max_x bbox - min_x bbox) Hi) as [qx [-> [_ Hqx]]].
  destruct (center_ratio j cols (max_y bbox - min_y bbox) Hj) as [qy [-> [_ Hqy]]].
  lra.
Qed.

(** C6 (amended): read over the reals, on an image whose shape starts
    with [rows, cols] and a box with [min < max] on both axes, a polygon
    that is the rectangle of the box gives a mask whose entries are all
    true. *)
Theorem get_field_pixels_covered (img : ndarray R) (bbox : BBox R) (field : Polygon)
    (rows cols : nat) (rest : list nat) :
  shape img = rows :: cols :: rest ->
  min_x bbox < max_x bbox -> min_y bbox < max_y bbox ->
  covers_bbox contains field bbox ->
  exists mask,
    get_field_pixels contains img bbox field = Ok mask /\ all_true mask.
Proof.
  intros Hshape Hx Hy Hcov. eexists.
  split; [apply (get_field_pixels_run _ contains _ _ _ _ _ _ Hshape) |].
  unfold all_true. cbn [data]. apply mask_elements. intros i j Hi Hj.
  unfold cell_value. apply Hcov.
  apply pixel_center_strictly_inside; assumption.
Qed.

End Masks.

Lemma real_rectangle_covers (b : BBox R) : covers_bbox real_rectangle_contains b b.
Proof.
  intros p. unfold real_rectangle_contains, strictly_inside.
  rewrite bool_decide_eq_true. reflexivity.
Qed.

Lemma real_rectangle_apart :
  outside_bbox real_rectangle_contains (mkBBox 10 10 11 11 WGS84) (mkBBox 0 0 1 1 WGS84).
Proof.
  intros p. unfold real_rectangle_contains, within.
  rewrite bool_decide_eq_true. cbn. lra.
Qed.

Lemma get_field_pixels_covered_witness :
  exists mask,
    get_field_pixels real_rectangle_contains (mk_ndarray [2; 3]%nat [1; 2; 3; 4; 5; 6])
      (mkBBox 0 0 1 1 WGS84) (mkBBox 0 0 1 1 WGS84) = Ok mask /\
    all_true mask.
Proof.
  apply (get_field_pixels_covered (BBox R) real_rectangle_contains
           (mk_ndarray [2; 3]%nat [1; 2; 3; 4; 5; 6])
           (mkBBox 0 0 1 1 WGS84) (mkBBox 0 0 1 1 WGS84) 2 3 []).
  - reflexivity.
  - cbn. lra.
  - cbn. lra.
  - apply real_rectangle_covers.
Defined.


End Exact.

(** *** both readings of get_square_around_point *)

(** C1 (amended): in binary64, for every input and every cosine, the
    function returns the list [[lon - d; lat - h; lon + d; lat + h]], with
    [h] the latitude offset and [d] the longitude offset, every operation
    rounded: the bounds can then coincide, or their midpoint miss the
    point.  Read over the reals, for every longitude, every latitude
    strictly between -90 and 90 and every positive side, the four bounds
    satisfy [min_lon < max_lon] and [min_lat < max_lat], and the input
    point is the midpoint of the box. *)
Theorem get_square_around_point_square :
  (forall (libm_cos : float -> float) (lon lat m : float),
      @get_square_around_point float _ (float_trig libm_cos) lon lat m
      = Ok [lon - @lon_offset float _ (float_trig libm_cos) lat m;
            lat - lat_offset m;
            lon + @lon_offset float _ (float_trig libm_cos) lat m;
            lat + lat_offset m]%float) /\
  (forall lon lat m : R,
      (-90 < lat < 90)%R -> (0 < m)%R ->
      exists min_lon min_lat max_lon max_lat : R,
        get_square_around_point lon lat m = Ok [min_lon; min_lat; max_lon; max_lat] /\
        min_lon = (lon - lon_offset lat m)%R /\ min_lat = (lat - lat_offset m)%R /\
        max_lon = (lon + lon_offset lat m)%R /\ max_lat = (lat + lat_offset m)%R /\
        (min_lon < max_lon)%R /\ (min_lat < max_lat)%R /\
        ((min_lon + max_lon) / 2 = lon)%R /\ ((min_lat + max_lat) / 2 = lat)%R).
Proof.
  split.
  - intros libm_cos lon lat m. reflexivity.
  - intros lon lat m Hlat Hm.
    pose proof (Exact.lon_offset_pos lat m Hlat Hm) as Hd.
    pose proof (Exact.lat_offset_pos m Hm) as Hh.
    rewrite get_square_around_point_eq. cbn [add sub R_arith].
    do 4 eexists. split; [reflexivity |].
    repeat split; lra.
Qed.

Lemma get_square_around_point_square_witness :
  exists min_lon min_lat max_lon max_lat : R,
    get_square_around_point 2%R 41%R 1000%R
      = Ok [min_lon; min_lat; max_lon; max_lat] /\
    min_lon = (2 - lon_offset 41 1000)%R /\ min_lat = (41 - lat_offset 1000)%R /\
    max_lon = (2 + lon_offset 41 1000)%R /\ max_lat = (41 + lat_offset 1000)%R /\
    (min_lon < max_lon)%R /\ (min_lat < max_lat)%R /\
    ((min_lon + max_lon) / 2 = 2)%R /\ ((min_lat + max_lat) / 2 = 41)%R.
Proof.
  apply (proj2 get_square_around_point_square 2%R 41%R 1000%R); lra.
Defined.


(** *** get_bbox_of_given_size applied twice, over the reals *)

Lemma round_half_up_nearest : rounds_to_nearest round_half_up.
Proof.
  intros x. unfold round_half_up. rewrite minus_IZR.
  destruct (archimed (x + 1 / 2)) as [Hlo Hhi].
  apply Rabs_le. lra.
Qed.

Lemma round_half_up_eq (k : Z) (x : R) :
  (IZR k - 1 / 2 <= x < IZR k + 1 / 2)%R -> round_half_up x = k.
Proof.
  intros [Hlo Hhi]. unfold round_half_up.
  rewrite <- (tech_up (x + 1 / 2) (k + 1)).
  - lia.
  - rewrite plus_IZR. lra.
  - rewrite plus_IZR. lra.
Qed.

Section Rescaling.
Local Open Scope R_scope.
Variable rnd : R -> Z.
Hypothesis rnd_nearest : rounds_to_nearest rnd.

Lemma rnd_bounds (x : R) : x - 1 / 2 <= IZR (rnd x) <= x + 1 / 2.
Proof.
  pose proof (rnd_nearest x) as Hx.
  unfold Rabs in Hx. destruct (Rcase_abs _) in Hx; lra.
Qed.

(** A real less than 1/2 away from an integer rounds to it. *)
Lemma rnd_unique (x : R) (p : Z) : Rabs (x - IZR p) < 1 / 2 -> rnd x = p.
Proof.
  intros Hx. apply Rabs_def2 in Hx.
  pose proof (rnd_bounds x) as Hb.
  assert (Hlt : (rnd x - p < 1)%Z).
  { apply lt_IZR. rewrite minus_IZR. lra. }
  assert (Hgt : (-1 < rnd x - p)%Z).
  { apply lt_IZR. rewrite minus_IZR. lra. }
  lia.
Qed.

(** Rounding to nearest is monotonic. *)
Lemma rnd_monotonic (x y : R) : x <= y -> (rnd x <= rnd y)%Z.
Proof.
  intros Hxy. destruct (Z_le_gt_dec (rnd x) (rnd y)) as [Hle | Hgt]; [exact Hle |].
  destruct (Req_dec x y) as [-> | Hne]; [lia |].
  pose proof (rnd_bounds x) as Hx. pose proof (rnd_bounds y) as Hy.
  assert (H1 : IZR (rnd y) + 1 <= IZR (rnd x)).
  { rewrite <- (plus_IZR _ 1). apply IZR_le. lia. }
  lra.
Qed.

Lemma rounding_dimensions_monotonic (b1 b2 : BBox R) (resolution : Z) :
  (0 < resolution)%Z ->
  max_x b1 - min_x b1 <= max_x b2 - min_x b2 ->
  max_y b1 - min_y b1 <= max_y b2 - min_y b2 ->
  (fst (rounding_dimensions rnd b1 resolution)
     <= fst (rounding_dimensions rnd b2 resolution))%Z /\
  (snd (rounding_dimensions rnd b1 resolution)
     <= snd (rounding_dimensions rnd b2 resolution))%Z.
Proof.
  intros Hr Hx Hy. unfold rounding_dimensions. cbn [fst snd].
  assert (Hpos : 0 < / IZR resolution).
  { apply Rinv_0_lt_compat. apply IZR_lt. exact Hr. }
  split; apply rnd_monotonic; unfold Rdiv; nra.
Qed.

(** The first application: an extent of [q] pixels that rounds to [n]
    becomes [q * p / n] pixels, which is at least the target [p] after
    rounding if the box shrinks, or if [q] is not too far below [n]. *)
Lemma first_rescaling (q : R) (p : Z) :
  (0 < p)%Z -> (0 < rnd q)%Z ->
  (p <= rnd q)%Z \/ 2 * IZR p * (IZR (rnd q) - q) < IZR (rnd q) ->
  (p <= rnd (q * IZR p / IZR (rnd q)))%Z.
Proof.
  intros Hp Hn Hc.
  set (n := rnd q) in *.
  assert (Hp' : 0 < IZR p) by (apply IZR_lt; exact Hp).
  assert (Hn' : 0 < IZR n) by (apply IZR_lt; exact Hn).
  destruct (Z.eq_dec p n) as [E | Hne].
  - rewrite E. replace (q * IZR n / IZR n) with q by (field; lra).
    fold n. lia.
  - assert (Hc' : 2 * IZR p * (IZR n - q) < IZR n).
    { destruct Hc as [Hle | Hc]; [| exact Hc].
      assert (Hlt : IZR p + 1 <= IZR n).
      { rewrite <- (plus_IZR _ 1). apply IZR_le. lia. }
      pose proof (rnd_bounds q) as Hq. fold n in Hq. nra. }
    set (q1 := q * IZR p / IZR n).
    assert (Eq1 : q1 * IZR n = q * IZR p) by (unfold q1; field; lra).
    assert (Hq1 : IZR p - 1 / 2 < q1) by nra.
    pose proof (rnd_bounds q1) as Hb.
    assert (Hlt : (p - 1 < rnd q1)%Z).
    { apply lt_IZR. rewrite minus_IZR. lra. }
    lia.
Qed.

(** The second application: an extent that rounds to [n1 >= p] pixels
    comes within 1/2 of the target [p], and is left alone when [n1 = p]. *)
Lemma second_rescaling (q1 : R) (p : Z) :
  (0 < p)%Z -> (p <= rnd q1)%Z ->
  rnd (q1 * IZR p / IZR (rnd q1)) = p.
Proof.
  intros Hp Hn.
  set (n1 := rnd q1) in *.
  assert (Hp' : 0 < IZR p) by (apply IZR_lt; exact Hp).
  assert (Hn' : 0 < IZR n1) by (apply IZR_lt; lia).
  destruct (Z.eq_dec p n1) as [E | Hne].
  - rewrite E. replace (q1 * IZR n1 / IZR n1) with q1 by (field; lra).
    reflexivity.
  - assert (Hlt : IZR p + 1 <= IZR n1).
    { rewrite <- (plus_IZR _ 1). apply IZR_le. lia. }
    pose proof (rnd_bounds q1) as Hq. fold n1 in Hq.
    set (q2 := q1 * IZR p / IZR n1).
    assert (Eq2 : q2 * IZR n1 = q1 * IZR p) by (unfold q2; field; lra).
    apply rnd_unique. apply Rabs_def1; nra.
Qed.

(** The dimensions of a box given by its lower-left corner and its
    extents. *)
Lemma rounding_dimensions_extent (a b w h : R) (resolution : Z) :
  rounding_dimensions rnd (mkBBox a b (w + a) (h + b) WGS84) resolution
  = (rnd (w / IZR resolution), rnd (h / IZR resolution)).
Proof.
  unfold rounding_dimensions. cbn [min_x min_y max_x max_y].
  replace (w + a - a) with w by ring. replace (h + b - b) with h by ring.
  reflexivity.
Qed.

Lemma rescaled_extent (e : R) (p n resolution : Z) :
  e * IZR p / IZR n / IZR resolution = e / IZR resolution * IZR p / IZR n.
Proof. unfold Rdiv. ring. Qed.

End Rescaling.



(** * Further properties *)

(** ** Dates *)

Lemma date_add_in_range (d : date) (td : timedelta) :
  in_date_range (d + td) -> date_add d td = Return (d + td)%Z.
Proof.
  intros [Hlo Hhi]. unfold date_add.
  destruct (Z.leb_spec MIN_ORDINAL (d + td)); [| lia].
  destruct (Z.leb_spec (d + td) MAX_ORDINAL); [| lia].
  reflexivity.
Qed.

Lemma date_sub_in_range (d : date) (td : timedelta) :
  in_date_range (d - td) -> date_sub d td = Return (d - td)%Z.
Proof.
  intros Hr. unfold date_sub. rewrite date_add_in_range.
  - f_equal.
  - replace (d + - td)%Z with (d - td)%Z by lia. exact Hr.
Qed.

Lemma date_add_out_of_range (d : date) (td : timedelta) :
  ~ in_date_range (d + td) -> date_add d td = Throw OverflowError.
Proof.
  intros Hr. unfold date_add, in_date_range in *.
  destruct (Z.leb_spec MIN_ORDINAL (d + td)); [| reflexivity].
  destruct (Z.leb_spec (d + td) MAX_ORDINAL); [| reflexivity].
  exfalso. apply Hr. split; assumption.
Qed.

Lemma timedelta_rmul_days (k : Z) :
  (Z.abs k <= MAX_DELTA_DAYS)%Z -> timedelta_rmul k one_day = Return k.
Proof.
  intros Hk. unfold timedelta_rmul, one_day. rewrite Z.mul_1_r.
  destruct (Z.leb_spec (Z.abs k) MAX_DELTA_DAYS); [reflexivity | lia].
Qed.

Lemma int_half_nonneg (k : Z) : (0 <= k)%Z -> int_half k = (k / 2)%Z.
Proof. intros Hk. unfold int_half. apply Z.quot_div_nonneg; lia. Qed.

Lemma int_half_after_even (k : Z) :
  (0 <= k)%Z -> (k mod 2 = 0)%Z -> int_half (k + 1) = (k / 2)%Z.
Proof.
  intros Hk Hev. rewrite int_half_nonneg by lia.
  pose proof (Z.div_mod k 2 ltac:(lia)) as E. rewrite Hev in E.
  symmetry. apply (Z.div_unique (k + 1) 2 (k / 2) 1); lia.
Qed.

(** ** get_request_for_saving_picture *)

Section RequestFacts.
Context {num Config : Type}.
Variable day_str : date -> string.

Lemma request_window_now (d : date) (interval : Z) :
  (2 <= interval)%Z ->
  in_date_range (d - interval / 2) -> in_date_range (d + interval / 2) ->
  request_time_interval day_str d "now" interval
  = Return (Some (day_str (d - interval / 2)%Z, day_str (d + interval / 2)%Z)).
Proof.
  intros Hi Ha Hb. unfold request_time_interval. cbn [String.eqb Ascii.eqb Bool.eqb].
  destruct (Z.eqb_spec interval 1) as [? | _]; [lia |].
  assert (Hsmall : (Z.abs (interval / 2) <= MAX_DELTA_DAYS)%Z).
  { destruct Ha as [Ha _], Hb as [_ Hb].
    unfold MIN_ORDINAL, MAX_ORDINAL, MAX_DELTA_DAYS in *.
    pose proof (Z.div_pos interval 2 ltac:(lia) ltac:(lia)). lia. }
  destruct (Z.eqb_spec (interval mod 2) 0) as [Hev | Hodd].
  - rewrite int_half_nonneg by lia. rewrite int_half_after_even by (lia || assumption).
    rewrite (timedelta_rmul_days _ Hsmall). cbn [and_then].
    rewrite (date_sub_in_range _ _ Ha). cbn [and_then].
    rewrite (date_add_in_range _ _ Hb). reflexivity.
  - rewrite int_half_nonneg by lia.
    rewrite (timedelta_rmul_days _ Hsmall). cbn [and_then].
    rewrite (date_sub_in_range _ _ Ha). cbn [and_then].
    rewrite (date_add_in_range _ _ Hb). reflexivity.
Qed.

Lemma request_of_window (box : BBox num) (box_size : Z * Z) (config : Config)
    (evalscript : string) (d : date) (folder time : string) (interval : Z)
    (window : string * string) :
  request_time_interval day_str d time interval = Return (Some window) ->
  get_request_for_saving_picture day_str box box_size config evalscript d folder
    time interval
  = Return (mkSentinelHubRequest folder evalscript
              [mkInputData SENTINEL2_L1C window "leastCC"] [("default", TIFF)]
              box box_size config).
Proof.
  intros E. unfold get_request_for_saving_picture. rewrite E. reflexivity.
Qed.

(** X1: with [time = 'now'] and an interval of at least 2, the request asks
    for the days from [interval // 2] before the date to [interval // 2]
    after it, whether the interval is even or odd, as long as both days
    exist. *)
Theorem request_now_is_centred (box : BBox num) (box_size : Z * Z) (config : Config)
    (evalscript : string) (d : date) (folder : string) (interval : Z) :
  (2 <= interval)%Z ->
  in_date_range (d - interval / 2) -> in_date_range (d + interval / 2) ->
  get_request_for_saving_picture day_str box box_size config evalscript d folder
    "now" interval
  = Return (mkSentinelHubRequest folder evalscript
              [mkInputData SENTINEL2_L1C
                 (day_str (d - interval / 2)%Z, day_str (d + interval / 2)%Z)
                 "leastCC"]
              [("default", TIFF)] box box_size config).
Proof.
  intros Hi Ha Hb. apply request_of_window.
  apply request_window_now; assumption.
Qed.

Lemma request_window_after (d : date) (interval : Z) :
  in_date_range (d + 1) -> in_date_range (d + interval) ->
  request_time_interval day_str d "after" interval
  = Return (Some (day_str (d + 1)%Z, day_str (d + interval)%Z)).
Proof.
  intros Ha Hb. unfold request_time_interval. cbn [String.eqb Ascii.eqb Bool.eqb].
  unfold one_day at 1. rewrite (date_add_in_range _ _ Ha). cbn [and_then].
  rewrite timedelta_rmul_days.
  - cbn [and_then]. rewrite (date_add_in_range _ _ Hb). reflexivity.
  - destruct Ha as [Ha Ha'], Hb as [Hb Hb'].
    unfold MIN_ORDINAL, MAX_ORDINAL, MAX_DELTA_DAYS in *. lia.
Qed.

Lemma request_window_before (d : date) (interval : Z) :
  in_date_range (d - 1) -> in_date_range (d - interval) ->
  request_time_interval day_str d "before" interval
  = Return (Some (day_str (d - 1)%Z, day_str (d - interval)%Z)).
Proof.
  intros Ha Hb. unfold request_time_interval. cbn [String.eqb Ascii.eqb Bool.eqb].
  unfold one_day at 1. rewrite (date_sub_in_range _ _ Ha). cbn [and_then].
  rewrite timedelta_rmul_days.
  - cbn [and_then]. rewrite (date_sub_in_range _ _ Hb). reflexivity.
  - destruct Ha as [Ha Ha'], Hb as [Hb Hb'].
    unfold MIN_ORDINAL, MAX_ORDINAL, MAX_DELTA_DAYS in *. lia.
Qed.

(** X2: with [time = 'now'], an even interval [2k] and the odd interval
    [2k + 1] that follows it give the same outcome, for every [k >= 1]: the
    same request or the same exception. *)
Theorem request_now_even_odd (box : BBox num) (box_size : Z * Z) (config : Config)
    (evalscript : string) (d : date) (folder : string) (k : Z) :
  (1 <= k)%Z ->
  get_request_for_saving_picture day_str box box_size config evalscript d folder
    "now" (2 * k)
  = get_request_for_saving_picture day_str box box_size config evalscript d folder
      "now" (2 * k + 1).
Proof.
  intros Hk. unfold get_request_for_saving_picture. f_equal.
  unfold request_time_interval. cbn [String.eqb Ascii.eqb Bool.eqb].
  destruct (Z.eqb_spec (2 * k) 1) as [? | _]; [lia |].
  destruct (Z.eqb_spec (2 * k + 1) 1) as [? | _]; [lia |].
  assert (Hev : ((2 * k) mod 2 = 0)%Z).
  { rewrite Z.mul_comm. apply Z.mod_mul. lia. }
  assert (Hodd : ((2 * k + 1) mod 2 = 1)%Z).
  { rewrite Z.add_comm, Z.mul_comm. rewrite Z.mod_add by lia. reflexivity. }
  rewrite Hev, Hodd. cbn [Z.eqb].
  rewrite (int_half_after_even (2 * k)) by lia.
  rewrite (int_half_nonneg (2 * k)) by lia.
  reflexivity.
Qed.

(** X4: the window handed to the imagery client.  For every interval and
    every date whose neighbours exist, the branch [time = 'after'] computes
    the pair (day after the date, [interval] days after the date) and the
    branch [time = 'before'] computes its mirror image (day before the date,
    [interval] days before the date), in this order: for an interval of 2
    or more the first day of the pair is then the later one.  What the
    client makes of such a pair is outside this function. *)
Theorem request_window_before_mirrors_after (d : date) (interval : Z) :
  in_date_range (d - interval) -> in_date_range (d - 1) ->
  in_date_range (d + 1) -> in_date_range (d + interval) ->
  request_time_interval day_str d "after" interval
  = Return (Some (day_str (d + 1)%Z, day_str (d + interval)%Z)) /\
  request_time_interval day_str d "before" interval
  = Return (Some (day_str (d - 1)%Z, day_str (d - interval)%Z)) /\
  ((2 <= interval)%Z -> (d - interval < d - 1)%Z).
Proof.
  intros H1 H2 H3 H4. split; [| split].
  - apply request_window_after; assumption.
  - apply request_window_before; assumption.
  - lia.
Qed.

Lemma date_add_cases (d : date) (td : timedelta) :
  date_add d td = Return (d + td)%Z \/ date_add d td = Throw OverflowError.
Proof. unfold date_add. destruct (_ && _)%bool; auto. Qed.

Lemma date_sub_cases (d : date) (td : timedelta) :
  date_sub d td = Return (d - td)%Z \/ date_sub d td = Throw OverflowError.
Proof.
  unfold date_sub. destruct (date_add_cases d (- td)%Z) as [E | E]; rewrite E.
  - left. reflexivity.
  - right. reflexivity.
Qed.

Lemma timedelta_rmul_cases (k : Z) :
  timedelta_rmul k one_day = Return k \/ timedelta_rmul k one_day = Throw OverflowError.
Proof.
  unfold timedelta_rmul, one_day. rewrite Z.mul_1_r. destruct (_ <=? _)%Z; auto.
Qed.

(** The three named branches assign the window or overflow. *)
Lemma request_window_named (d : date) (time : string) (interval : Z) :
  time = "now" \/ time = "after" \/ time = "before" ->
  (exists a b : date,
      request_time_interval day_str d time interval
      = Return (Some (day_str a, day_str b))) \/
  request_time_interval day_str d time interval = Throw OverflowError.
Proof.
  intros [-> | [-> | ->]]; unfold request_time_interval;
    cbn [String.eqb Ascii.eqb Bool.eqb].
  - destruct (interval =? 1)%Z.
    + destruct (date_add_cases d one_day) as [E | E]; rewrite E; cbn [and_then]; eauto.
    + destruct (interval mod 2 =? 0)%Z.
      * destruct (timedelta_rmul_cases (int_half interval)) as [E | E]; rewrite E;
          cbn [and_then]; [| auto].
        destruct (date_sub_cases d (int_half interval)) as [E1 | E1]; rewrite E1;
          cbn [and_then]; [| auto].
        destruct (timedelta_rmul_cases (int_half (interval + 1))) as [E2 | E2];
          rewrite E2; cbn [and_then]; [| auto].
        destruct (date_add_cases d (int_half (interval + 1))) as [E3 | E3]; rewrite E3;
          cbn [and_then]; eauto.
      * destruct (timedelta_rmul_cases (int_half interval)) as [E | E]; rewrite E;
          cbn [and_then]; [| auto].
        destruct (date_sub_cases d (int_half interval)) as [E1 | E1]; rewrite E1;
          cbn [and_then]; [| auto].
        destruct (date_add_cases d (int_half interval)) as [E3 | E3]; rewrite E3;
          cbn [and_then]; eauto.
  - destruct (date_add_cases d one_day) as [E | E]; rewrite E; cbn [and_then]; [| auto].
    destruct (timedelta_rmul_cases interval) as [E1 | E1]; rewrite E1;
      cbn [and_then]; [| auto].
    destruct (date_add_cases d interval) as [E2 | E2]; rewrite E2; cbn [and_then]; eauto.
  - destruct (date_sub_cases d one_day) as [E | E]; rewrite E; cbn [and_then]; [| auto].
    destruct (timedelta_rmul_cases interval) as [E1 | E1]; rewrite E1;
      cbn [and_then]; [| auto].
    destruct (date_sub_cases d interval) as [E2 | E2]; rewrite E2; cbn [and_then]; eauto.
Qed.

Lemma request_window_unnamed (d : date) (time : string) (interval : Z) :
  time <> "now" -> time <> "after" -> time <> "before" ->
  request_time_interval day_str d time interval = Return None.
Proof.
  intros H1 H2 H3. unfold request_time_interval.
  apply String.eqb_neq in H1, H2, H3. rewrite H1, H2, H3. reflexivity.
Qed.

Lemma request_window_now_inv (d : date) (interval : Z) (w : string * string) :
  (2 <= interval)%Z ->
  request_time_interval day_str d "now" interval = Return (Some w) ->
  w = (day_str (d - interval / 2)%Z, day_str (d + interval / 2)%Z).
Proof.
  intros Hi. unfold request_time_interval. cbn [String.eqb Ascii.eqb Bool.eqb].
  destruct (Z.eqb_spec interval 1) as [? | _]; [lia |].
  rewrite (int_half_nonneg interval) by lia.
  destruct (Z.eqb_spec (interval mod 2) 0) as [Hev | Hodd].
  - rewrite (int_half_after_even interval) by (lia || assumption).
    destruct (timedelta_rmul_cases (interval / 2)%Z) as [E | E]; rewrite E;
      cbn [and_then]; [| discriminate].
    destruct (date_sub_cases d (interval / 2)%Z) as [E1 | E1]; rewrite E1;
      cbn [and_then]; [| discriminate].
    destruct (date_add_cases d (interval / 2)%Z) as [E2 | E2]; rewrite E2;
      cbn [and_then]; [| discriminate].
    intros E3. injection E3 as <-. reflexivity.
  - destruct (timedelta_rmul_cases (interval / 2)%Z) as [E | E]; rewrite E;
      cbn [and_then]; [| discriminate].
    destruct (date_sub_cases d (interval / 2)%Z) as [E1 | E1]; rewrite E1;
      cbn [and_then]; [| discriminate].
    destruct (date_add_cases d (interval / 2)%Z) as [E2 | E2]; rewrite E2;
      cbn [and_then]; [| discriminate].
    intros E3. injection E3 as <-. reflexivity.
Qed.

(** X3: with [time = 'now'] and an interval of at least 1, a request that
    is returned asks for a window that contains the date and spans
    [interval] days, or one day less: from a day [a] to a day [b] with
    [a <= date <= b] and [interval - 1 <= b - a <= interval]. *)
Theorem request_now_contains_date (box : BBox num) (box_size : Z * Z)
    (config : Config) (evalscript : string) (d : date) (folder : string)
    (interval : Z) (request : SentinelHubRequest num Config) :
  (1 <= interval)%Z ->
  get_request_for_saving_picture day_str box box_size config evalscript d folder
    "now" interval = Return request ->
  exists a b : date,
    input_data request = [mkInputData SENTINEL2_L1C (day_str a, day_str b) "leastCC"] /\
    (a <= d)%Z /\ (d <= b)%Z /\
    (interval - 1 <= b - a)%Z /\ (b - a <= interval)%Z.
Proof.
  intros Hi. unfold get_request_for_saving_picture.
  destruct (request_time_interval day_str d "now" interval) as [[w |] | e] eqn:E;
    cbn [and_then]; try discriminate.
  intros Hr. injection Hr as <-. cbn [input_data].
  destruct (Z.eq_dec interval 1%Z) as [-> | Hne].
  - unfold request_time_interval in E. cbn in E.
    destruct (date_add_cases d one_day) as [E1 | E1]; rewrite E1 in E;
      cbn [and_then] in E; [| discriminate].
    injection E as <-. exists d, (d + one_day)%Z. unfold one_day.
    repeat split; lia.
  - apply request_window_now_inv in E; [| lia]. subst w.
    exists (d - interval / 2)%Z, (d + interval / 2)%Z.
    pose proof (Z.div_mod interval 2 ltac:(lia)) as Hdm.
    pose proof (Z.mod_pos_bound interval 2 ltac:(lia)) as Hmod.
    repeat split; lia.
Qed.

(** X5: the function raises [UnboundLocalError] exactly when [time] is none
    of ['now'], ['after'] and ['before']; whatever else it raises is an
    [OverflowError] of the date arithmetic. *)
Theorem request_unbound_iff (box : BBox num) (box_size : Z * Z) (config : Config)
    (evalscript : string) (d : date) (folder time : string) (interval : Z) :
  (get_request_for_saving_picture day_str box box_size config evalscript d folder
     time interval = Throw UnboundLocalError
   <-> time <> "now" /\ time <> "after" /\ time <> "before") /\
  (forall e,
     get_request_for_saving_picture day_str box box_size config evalscript d folder
       time interval = Throw e ->
     e = UnboundLocalError \/ e = OverflowError).
Proof.
  unfold get_request_for_saving_picture.
  destruct (decide (time = "now")) as [Hn | Hn];
    [| destruct (decide (time = "after")) as [Ha | Ha];
       [| destruct (decide (time = "before")) as [Hb | Hb]]].
  4: { rewrite (request_window_unnamed d time interval Hn Ha Hb). cbn [and_then].
       split; [split; auto |]. intros e E. injection E as <-. auto. }
  all: assert (Hnamed : time = "now" \/ time = "after" \/ time = "before") by auto.
  all: destruct (request_window_named d time interval Hnamed) as [[a [b E]] | E];
    rewrite E; cbn [and_then].
  all: split; [split; [discriminate | intros [? [? ?]]; congruence] |].
  all: intros e He; try discriminate; injection He as <-; auto.
Qed.
End RequestFacts.

Lemma request_now_is_centred_witness :
  get_request_for_saving_picture ordinal_text (mkBBox 0 0 1 1 WGS84)%float
    (10, 10)%Z "instance" "script" 737000%Z "out" "now" 5
  = Return (mkSentinelHubRequest "out" "script"
              [mkInputData SENTINEL2_L1C
                 (ordinal_text (737000 - 5 / 2)%Z, ordinal_text (737000 + 5 / 2)%Z)
                 "leastCC"]
              [("default", TIFF)] (mkBBox 0 0 1 1 WGS84)%float (10, 10)%Z "instance").
Proof.
  apply (request_now_is_centred ordinal_text (mkBBox 0 0 1 1 WGS84)%float
           (10, 10)%Z "instance" "script" 737000%Z "out" 5%Z);
    vm_compute; intuition discriminate.
Defined.

Lemma request_now_even_odd_witness :
  get_request_for_saving_picture ordinal_text (mkBBox 0 0 1 1 WGS84)%float
    (10, 10)%Z "instance" "script" 737000%Z "out" "now" (2 * 2)
  = get_request_for_saving_picture ordinal_text (mkBBox 0 0 1 1 WGS84)%float
      (10, 10)%Z "instance" "script" 737000%Z "out" "now" (2 * 2 + 1).
Proof.
  apply (request_now_even_odd ordinal_text (mkBBox 0 0 1 1 WGS84)%float
           (10, 10)%Z "instance" "script" 737000%Z "out" 2%Z).
  lia.
Defined.

Lemma request_now_contains_date_witness :
  exists a b : date,
    [mkInputData SENTINEL2_L1C (ordinal_text 736998%Z, ordinal_text 737002%Z) "leastCC"]
    = [mkInputData SENTINEL2_L1C (ordinal_text a, ordinal_text b) "leastCC"] /\
    (a <= 737000)%Z /\ (737000 <= b)%Z /\ (5 - 1 <= b - a)%Z /\ (b - a <= 5)%Z.
Proof.
  apply (request_now_contains_date ordinal_text (mkBBox 0 0 1 1 WGS84)%float
           (10, 10)%Z "instance" "script" 737000%Z "out" 5%Z
           (mkSentinelHubRequest "out" "script"
              [mkInputData SENTINEL2_L1C
                 (ordinal_text 736998%Z, ordinal_text 737002%Z) "leastCC"]
              [("default", TIFF)] (mkBBox 0 0 1 1 WGS84)%float (10, 10)%Z "instance")).
  - lia.
  - reflexivity.
Defined.

Lemma request_window_before_mirrors_after_witness :
  request_time_interval ordinal_text 737000%Z "after" 5
  = Return (Some (ordinal_text (737000 + 1)%Z, ordinal_text (737000 + 5)%Z)) /\
  request_time_interval ordinal_text 737000%Z "before" 5
  = Return (Some (ordinal_text (737000 - 1)%Z, ordinal_text (737000 - 5)%Z)) /\
  ((2 <= 5)%Z -> (737000 - 5 < 737000 - 1)%Z).
Proof.
  apply (request_window_before_mirrors_after ordinal_text 737000%Z 5%Z);
    vm_compute; intuition discriminate.
Defined.

Lemma request_unbound_iff_witness :
  get_request_for_saving_picture ordinal_text (mkBBox 0 0 1 1 WGS84)%float
    (10, 10)%Z "instance" "script" 737000%Z "out" "later" 5
  = Throw UnboundLocalError.
Proof.
  apply (proj1 (request_unbound_iff ordinal_text (mkBBox 0 0 1 1 WGS84)%float
                  (10, 10)%Z "instance" "script" 737000%Z "out" "later" 5%Z)).
  repeat split; discriminate.
Defined.

(** ** get_available_dates *)

Lemma for_loop_tile_dates (acc : list json) (tiles : list json) :
  for_loop (fun available_dates tile_info =>
              d <~ tile_date tile_info ;; Return (available_dates ++ [d])) acc tiles
  = (ds <~ tile_dates tiles ;; Return (acc ++ ds)).
Proof.
  revert acc. induction tiles as [| t tiles IH]; intros acc; cbn.
  - rewrite app_nil_r. reflexivity.
  - destruct (tile_date t) as [d | e]; cbn; [| reflexivity].
    rewrite IH. destruct (tile_dates tiles) as [ds | e]; cbn; [| reflexivity].
    rewrite <- app_assoc. reflexivity.
Qed.

Lemma tile_dates_return (tiles ds : list json) :
  tile_dates tiles = Return ds <->
  Forall2 (fun tile_info d => tile_date tile_info = Return d) tiles ds.
Proof.
  revert ds. induction tiles as [| t tiles IH]; intros ds; cbn.
  - split.
    + intros E. injection E as <-. constructor.
    + intros F. inversion F. reflexivity.
  - split.
    + destruct (tile_date t) as [d | e] eqn:Et; cbn; [| discriminate].
      destruct (tile_dates tiles) as [ds' | e] eqn:Es; cbn; [| discriminate].
      intros E. injection E as <-. constructor; [exact Et |].
      apply IH. reflexivity.
    + intros F. inversion F as [| t' d tiles' ds' Ht Hrest]; subst.
      rewrite Ht. cbn. apply IH in Hrest. rewrite Hrest. reflexivity.
Qed.

Lemma tile_dates_throw (tiles : list json) (e : py_error) :
  tile_dates tiles = Throw e <->
  exists before tile_info after,
    tiles = before ++ tile_info :: after /\
    Forall (fun t => exists d, tile_date t = Return d) before /\
    tile_date tile_info = Throw e.
Proof.
  induction tiles as [| t tiles IH]; cbn.
  - split; [discriminate |].
    intros [before [ti [after [E _]]]]. destruct before; discriminate.
  - split.
    + destruct (tile_date t) as [d | e'] eqn:Et; cbn.
      * destruct (tile_dates tiles) as [ds | e'] eqn:Es; cbn; [discriminate |].
        intros E. injection E as ->.
        destruct (proj1 IH eq_refl) as [before [ti [after [-> [Hb Hti]]]]].
        exists (t :: before), ti, after. repeat split; [| exact Hti].
        constructor; [eauto | exact Hb].
      * intros E. injection E as ->.
        exists [], t, tiles. repeat split; [constructor | exact Et].
    + intros [before [ti [after [E [Hb Hti]]]]].
      destruct before as [| t' before]; cbn in E; injection E as -> ->.
      * rewrite Hti. reflexivity.
      * inversion Hb as [| ? ? [d Hd] Hb']; subst. rewrite Hd. cbn.
        assert (Hrest : tile_dates (before ++ ti :: after) = Throw e).
        { apply IH. exists before, ti, after. auto. }
        rewrite Hrest. reflexivity.
Qed.

Lemma tile_dates_app (l1 l2 : list json) :
  tile_dates (l1 ++ l2)
  = (a <~ tile_dates l1 ;; b <~ tile_dates l2 ;; Return (a ++ b)).
Proof.
  induction l1 as [| t l1 IH]; cbn.
  - destruct (tile_dates l2); reflexivity.
  - destruct (tile_date t) as [d | e]; cbn; [| reflexivity].
    rewrite IH. destruct (tile_dates l1) as [a | e]; cbn; [| reflexivity].
    destruct (tile_dates l2); reflexivity.
Qed.

Section AvailableDatesFacts.
Context {num Config : Type}.
Variable WebFeatureService :
  BBox num -> string * string -> DataSource -> num -> Config -> list json.

Lemma get_available_dates_eq (bbox : BBox num) (time_interval : string * string)
    (config : Config) (max_cc : num) :
  get_available_dates WebFeatureService bbox time_interval config max_cc
  = tile_dates (WebFeatureService bbox time_interval SENTINEL2_L1C max_cc config).
Proof.
  unfold get_available_dates. rewrite for_loop_tile_dates.
  destruct (tile_dates _); reflexivity.
Qed.

(** X6: the function returns a list [ds] exactly when [ds] lists, tile by
    tile and in the order the catalogue yields them, the value under
    ['properties']['date'] of each tile: one date per tile, none dropped and
    none merged when two tiles share a day. *)
Theorem get_available_dates_return (bbox : BBox num) (time_interval : string * string)
    (config : Config) (max_cc : num) (ds : list json) :
  get_available_dates WebFeatureService bbox time_interval config max_cc = Return ds
  <-> Forall2 (fun tile_info d => tile_date tile_info = Return d)
        (WebFeatureService bbox time_interval SENTINEL2_L1C max_cc config) ds.
Proof. rewrite get_available_dates_eq. apply tile_dates_return. Qed.

(** X7: the function raises [e] exactly when some tile raises [e] on
    ['properties']['date'] and every tile the catalogue yields before it
    has a date: the first faulty tile decides, and the dates gathered so far
    are lost. *)
Theorem get_available_dates_throw (bbox : BBox num) (time_interval : string * string)
    (config : Config) (max_cc : num) (e : py_error) :
  get_available_dates WebFeatureService bbox time_interval config max_cc = Throw e
  <-> exists before tile_info after,
        WebFeatureService bbox time_interval SENTINEL2_L1C max_cc config
          = before ++ tile_info :: after /\
        Forall (fun t => exists d, tile_date t = Return d) before /\
        tile_date tile_info = Throw e.
Proof. rewrite get_available_dates_eq. apply tile_dates_throw. Qed.
End AvailableDatesFacts.

(** X8: when a catalogue yields the tiles of a first catalogue followed by
    those of a second, its dates are the dates of the first followed by the
    dates of the second, and it fails as the first does, or else as the
    second does. *)
Theorem get_available_dates_app {num Config : Type}
    (W1 W2 W : BBox num -> string * string -> DataSource -> num -> Config -> list json)
    (bbox : BBox num) (time_interval : string * string) (config : Config) (max_cc : num) :
  W bbox time_interval SENTINEL2_L1C max_cc config
    = W1 bbox time_interval SENTINEL2_L1C max_cc config
      ++ W2 bbox time_interval SENTINEL2_L1C max_cc config ->
  get_available_dates W bbox time_interval config max_cc
  = (a <~ get_available_dates W1 bbox time_interval config max_cc ;;
     b <~ get_available_dates W2 bbox time_interval config max_cc ;;
     Return (a ++ b)).
Proof.
  intros E. rewrite !get_available_dates_eq, E. apply tile_dates_app.
Qed.

Lemma get_available_dates_return_witness :
  get_available_dates
    (fun (_ : BBox float) _ _ _ (_ : string) =>
       [tile_of_day "2020-06-01"; tile_of_day "2020-06-01"; tile_of_day "2020-06-04"])
    (mkBBox 0 0 1 1 WGS84)%float ("2020-06-01", "2020-06-05") "instance" 1%float
  = Return [JStr "2020-06-01"; JStr "2020-06-01"; JStr "2020-06-04"].
Proof.
  apply (proj2 (get_available_dates_return
                  (fun (_ : BBox float) _ _ _ (_ : string) =>
                     [tile_of_day "2020-06-01"; tile_of_day "2020-06-01";
                      tile_of_day "2020-06-04"])
                  (mkBBox 0 0 1 1 WGS84)%float ("2020-06-01", "2020-06-05")
                  "instance" 1%float _)).
  repeat constructor.
Defined.

Lemma get_available_dates_throw_witness :
  get_available_dates
    (fun (_ : BBox float) _ _ _ (_ : string) =>
       [tile_of_day "2020-06-01"; JObj ∅; tile_of_day "2020-06-04"])
    (mkBBox 0 0 1 1 WGS84)%float ("2020-06-01", "2020-06-05") "instance" 1%float
  = Throw KeyError.
Proof.
  apply (proj2 (get_available_dates_throw
                  (fun (_ : BBox float) _ _ _ (_ : string) =>
                     [tile_of_day "2020-06-01"; JObj ∅; tile_of_day "2020-06-04"])
                  (mkBBox 0 0 1 1 WGS84)%float ("2020-06-01", "2020-06-05")
                  "instance" 1%float KeyError)).
  exists [tile_of_day "2020-06-01"], (JObj ∅), [tile_of_day "2020-06-04"].
  split; [reflexivity |]. split; [| reflexivity].
  constructor; [| constructor]. exists (JStr "2020-06-01"). reflexivity.
Defined.

Lemma get_available_dates_app_witness :
  get_available_dates
    (fun (_ : BBox float) _ _ _ (_ : string) =>
       [tile_of_day "2020-06-01"] ++ [tile_of_day "2020-06-04"])
    (mkBBox 0 0 1 1 WGS84)%float ("2020-06-01", "2020-06-05") "instance" 1%float
  = (a <~ get_available_dates
            (fun (_ : BBox float) _ _ _ (_ : string) => [tile_of_day "2020-06-01"])
            (mkBBox 0 0 1 1 WGS84)%float ("2020-06-01", "2020-06-05") "instance" 1%float ;;
     b <~ get_available_dates
            (fun (_ : BBox float) _ _ _ (_ : string) => [tile_of_day "2020-06-04"])
            (mkBBox 0 0 1 1 WGS84)%float ("2020-06-01", "2020-06-05") "instance" 1%float ;;
     Return (a ++ b)).
Proof.
  apply (get_available_dates_app
           (fun (_ : BBox float) _ _ _ (_ : string) => [tile_of_day "2020-06-01"])
           (fun (_ : BBox float) _ _ _ (_ : string) => [tile_of_day "2020-06-04"])
           (fun (_ : BBox float) _ _ _ (_ : string) =>
              [tile_of_day "2020-06-01"] ++ [tile_of_day "2020-06-04"])).
  reflexivity.
Defined.

(** ** More on get_field_pixels *)

Section FieldPixelsMore.
Context {num : Type} `{Arith num}.

Lemma get_field_pixels_ok_shape (Polygon : Type) (contains : Polygon -> Point num -> bool)
    (img : ndarray num) (bbox : BBox num) (field : Polygon) (mask : ndarray bool) :
  get_field_pixels contains img bbox field = Ok mask ->
  exists rows cols rest,
    shape img = rows :: cols :: rest /\
    mask = mk_ndarray [rows; cols]
             (assign_all cols (cell_value contains rows cols bbox field)
                (np_ndindex rows cols) (replicate (rows * cols) false)).
Proof.
  intros E. destruct (shape img) as [| rows [| cols rest]] eqn:Hshape.
  - rewrite get_field_pixels_flat_image in E by (rewrite Hshape; cbn; lia). discriminate.
  - rewrite get_field_pixels_flat_image in E by (rewrite Hshape; cbn; lia). discriminate.
  - exists rows, cols, rest. split; [reflexivity |].
    rewrite (get_field_pixels_run _ contains img bbox field rows cols rest Hshape) in E.
    injection E as <-. reflexivity.
Qed.

Lemma mask_getitem (Polygon : Type) (contains : Polygon -> Point num -> bool)
    (rows cols : nat) (bbox : BBox num) (field : Polygon) (i j : nat) (v : bool) :
  getitem2 (mk_ndarray [rows; cols]
              (assign_all cols (cell_value contains rows cols bbox field)
                 (np_ndindex rows cols) (replicate (rows * cols) false))) i j = Ok v
  <-> (i < rows)%nat /\ (j < cols)%nat /\
      contains field (pixel_center rows cols bbox i j) = v.
Proof.
  unfold getitem2. cbn [shape data].
  destruct (Nat.ltb_spec i rows) as [Hi | Hi];
    [| cbn [andb]; split; [discriminate | intros [? _]; lia]].
  destruct (Nat.ltb_spec j cols) as [Hj | Hj];
    [| cbn [andb]; split; [discriminate | intros [_ [? _]]; lia]].
  cbn [andb]. unfold tuple_getitem.
  rewrite (mask_cell _ contains rows cols bbox field i j Hi Hj). unfold cell_value.
  split.
  - intros E. injection E as <-. auto.
  - intros [_ [_ <-]]. reflexivity.
Qed.

(** X9: the function raises exactly when the image has fewer than two
    dimensions, and the exception is then [IndexError]: it never divides by
    zero, not even for an image with no rows or no columns. *)
Theorem get_field_pixels_raises_iff (Polygon : Type)
    (contains : Polygon -> Point num -> bool)
    (img : ndarray num) (bbox : BBox num) (field : Polygon) (e : exception) :
  get_field_pixels contains img bbox field = Raise e
  <-> (length (shape img) < 2)%nat /\ e = IndexError.
Proof.
  split.
  - intros E. destruct (shape img) as [| rows [| cols rest]] eqn:Hshape.
    + rewrite get_field_pixels_flat_image in E by (rewrite Hshape; cbn; lia).
      injection E as <-. cbn. split; [lia | reflexivity].
    + rewrite get_field_pixels_flat_image in E by (rewrite Hshape; cbn; lia).
      injection E as <-. cbn. split; [lia | reflexivity].
    + rewrite (get_field_pixels_run _ contains img bbox field rows cols rest Hshape) in E.
      discriminate.
  - intros [Hlen ->]. apply get_field_pixels_flat_image. exact Hlen.
Qed.

(** X10: a larger field gives a larger mask: when every point that the
    first polygon contains is contained in the second, every cell that is
    true in the mask of the first is true in the mask of the second. *)
Theorem get_field_pixels_monotone (Polygon1 Polygon2 : Type)
    (contains1 : Polygon1 -> Point num -> bool)
    (contains2 : Polygon2 -> Point num -> bool)
    (img : ndarray num) (bbox : BBox num) (field1 : Polygon1) (field2 : Polygon2)
    (mask1 mask2 : ndarray bool) :
  (forall p, contains1 field1 p = true -> contains2 field2 p = true) ->
  get_field_pixels contains1 img bbox field1 = Ok mask1 ->
  get_field_pixels contains2 img bbox field2 = Ok mask2 ->
  forall i j, getitem2 mask1 i j = Ok true -> getitem2 mask2 i j = Ok true.
Proof.
  intros Hsub E1 E2 i j.
  apply get_field_pixels_ok_shape in E1. destruct E1 as [r [c [rest [Hs ->]]]].
  apply get_field_pixels_ok_shape in E2. destruct E2 as [r' [c' [rest' [Hs' ->]]]].
  rewrite Hs in Hs'. injection Hs' as <- <- <-.
  rewrite !mask_getitem. intros [Hi [Hj Hc]]. auto.
Qed.

(** X11: the axes can be exchanged together.  Take the image transposed
    (shape starting with [cols, rows]), the box with its two axes
    exchanged, and a polygon that contains a point exactly when the first
    contains the point with its coordinates exchanged: cell [(j, i)] of the
    new mask is cell [(i, j)] of the first. *)
Theorem get_field_pixels_transpose (Polygon1 Polygon2 : Type)
    (contains1 : Polygon1 -> Point num -> bool)
    (contains2 : Polygon2 -> Point num -> bool)
    (img1 img2 : ndarray num) (bbox : BBox num) (field1 : Polygon1) (field2 : Polygon2)
    (rows cols : nat) (rest1 rest2 : list nat) :
  shape img1 = rows :: cols :: rest1 ->
  shape img2 = cols :: rows :: rest2 ->
  (forall p, contains2 field2 p = contains1 field1 (transpose_point p)) ->
  exists mask1 mask2,
    get_field_pixels contains1 img1 bbox field1 = Ok mask1 /\
    get_field_pixels contains2 img2 (transpose_bbox bbox) field2 = Ok mask2 /\
    forall i j, (i < rows)%nat -> (j < cols)%nat ->
      exists v, getitem2 mask1 i j = Ok v /\ getitem2 mask2 j i = Ok v.
Proof.
  intros Hs1 Hs2 Hswap. do 2 eexists.
  split; [apply (get_field_pixels_run _ contains1 _ _ _ _ _ _ Hs1) |].
  split; [apply (get_field_pixels_run _ contains2 _ _ _ _ _ _ Hs2) |].
  intros i j Hi Hj.
  exists (contains1 field1 (pixel_center rows cols bbox i j)).
  rewrite !mask_getitem. repeat split; try assumption.
  rewrite Hswap. reflexivity.
Qed.
End FieldPixelsMore.

(** ** More on get_bbox_of_given_size *)

Section BBoxMore.
Context {num : Type} `{Arith num}.
Variable bbox_to_dimensions : BBox num -> Z -> Z * Z.

(** X13: the exceptions of the function's own statements.  Coordinates
    that are not four make the unpacking raise [ValueError]; and whenever
    the function raises, it is either that [ValueError], or a
    [ZeroDivisionError] of one of the two divisions, with four coordinates,
    natural dimensions that differ from the target and one of them zero.
    (The converse of the second case holds for coordinates that are Python
    floats only; a numpy scalar divided by zero gives an infinity.) *)
Theorem get_bbox_of_given_size_raises_only
    (coords : list num) (pix : Z * Z) (resolution : Z) :
  (length coords <> 4%nat ->
   get_bbox_of_given_size bbox_to_dimensions coords pix resolution
   = Raise ValueError) /\
  (forall e,
      get_bbox_of_given_size bbox_to_dimensions coords pix resolution = Raise e ->
      (length coords <> 4%nat /\ e = ValueError) \/
      (exists x_min y_min x_max y_max,
          coords = [x_min; y_min; x_max; y_max] /\
          bbox_to_dimensions (mkBBox x_min y_min x_max y_max WGS84) resolution <> pix /\
          (fst (bbox_to_dimensions (mkBBox x_min y_min x_max y_max WGS84) resolution)
             = 0%Z \/
           snd (bbox_to_dimensions (mkBBox x_min y_min x_max y_max WGS84) resolution)
             = 0%Z) /\
          e = ZeroDivisionError)).
Proof.
  unfold get_bbox_of_given_size.
  destruct coords as [| a [| b [| c [| d [| e' rest]]]]].
  1-4, 6: split;
    [ reflexivity
    | intros e E; injection E as <-; left; split; [cbn; lia | reflexivity] ].
  split; [cbn; lia |].
  set (natural := bbox_to_dimensions (mkBBox a b c d WGS84) resolution).
  intros e. destruct (dims_eqb natural pix) eqn:Hd; [discriminate |].
  apply dims_eqb_neq in Hd. unfold truediv.
  destruct (Z.eqb_spec (fst natural) 0) as [Hx | Hx]; cbn [bind].
  - intros E. injection E as <-. right. exists a, b, c, d. auto.
  - destruct (Z.eqb_spec (snd natural) 0) as [Hy | Hy]; cbn [bind].
    + intros E. injection E as <-. right. exists a, b, c, d. auto.
    + discriminate.
Qed.
End BBoxMore.

(** ** Geometry over the reals *)

Module Geometry.
Local Open Scope R_scope.

Lemma lat_offset_value (m : R) : lat_offset m = m / 2 / 111111.
Proof. reflexivity. Qed.

Lemma lon_offset_value (lat m : R) :
  lon_offset lat m = m / 2 / (111111 * cos (lat * (PI / 180))).
Proof. reflexivity. Qed.

(** X15: read over the reals, at a latitude strictly between -90 and 90 the
    box is [m / 111111] degrees high, its width in degrees times the cosine
    of the latitude is that same number, and so, for [m >= 0], it is at
    least as wide as it is high. *)
Theorem get_square_around_point_extents (lon lat m : R) :
  -90 < lat < 90 ->
  exists min_lon min_lat max_lon max_lat : R,
    get_square_around_point lon lat m = Ok [min_lon; min_lat; max_lon; max_lat] /\
    max_lat - min_lat = m / 111111 /\
    (max_lon - min_lon) * cos (lat * (PI / 180)) = m / 111111 /\
    (0 <= m -> max_lat - min_lat <= max_lon - min_lon).
Proof.
  intros Hlat. pose proof (Exact.cos_deg2rad_pos lat Hlat) as Hcos.
  change (np_cos (np_deg2rad lat)) with (cos (lat * (PI / 180))) in Hcos.
  pose proof (COS_bound (lat * (PI / 180))) as [_ Hle].
  rewrite get_square_around_point_eq. do 4 eexists. split; [reflexivity |].
  cbn [add sub R_arith]. rewrite lat_offset_value, lon_offset_value.
  set (c := cos (lat * (PI / 180))) in *.
  assert (Ew : (lon + m / 2 / (111111 * c) - (lon - m / 2 / (111111 * c))) * c
               = m / 111111) by (field; lra).
  split; [field |]. split; [exact Ew |].
  intros Hm.
  replace (lat + m / 2 / 111111 - (lat - m / 2 / 111111)) with (m / 111111) by field.
  set (w := lon + m / 2 / (111111 * c) - (lon - m / 2 / (111111 * c))) in *.
  assert (Hh : 0 <= m / 111111) by (apply Rle_mult_inv_pos; lra).
  assert (Hw : 0 <= w) by nra.
  nra.
Qed.

(** X16: read over the reals, at a latitude strictly between -90 and 90, a
    side of zero gives the box reduced to the point, and a negative side
    gives a box turned inside out, its minima above its maxima: nothing is
    raised. *)
Theorem get_square_around_point_nonpositive (lon lat m : R) :
  -90 < lat < 90 -> m <= 0 ->
  exists min_lon min_lat max_lon max_lat : R,
    get_square_around_point lon lat m = Ok [min_lon; min_lat; max_lon; max_lat] /\
    (m = 0 -> min_lon = lon /\ max_lon = lon /\ min_lat = lat /\ max_lat = lat) /\
    (m < 0 -> max_lon < min_lon /\ max_lat < min_lat).
Proof.
  intros Hlat Hm. pose proof (Exact.cos_deg2rad_pos lat Hlat) as Hcos.
  change (np_cos (np_deg2rad lat)) with (cos (lat * (PI / 180))) in Hcos.
  rewrite get_square_around_point_eq. do 4 eexists. split; [reflexivity |].
  cbn [add sub R_arith]. rewrite lat_offset_value, lon_offset_value.
  set (c := cos (lat * (PI / 180))) in *.
  split.
  - intros ->. repeat split; field; lra.
  - intros Hneg.
    assert (Hd : m / 2 / (111111 * c) < 0).
    { apply Ropp_lt_cancel. rewrite Ropp_0.
      replace (- (m / 2 / (111111 * c))) with ((- m) / 2 / (111111 * c)) by (field; lra).
      apply Rdiv_lt_0_compat; [lra | ]. apply Rmult_lt_0_compat; lra. }
    split; lra.
Qed.


Section Grid.
Variable Polygon : Type.
Variable contains : Polygon -> Point R -> bool.

Lemma pixel_center_grid (rows cols : nat) (bbox : BBox R) (i j : nat) :
  (0 < rows)%nat -> (0 < cols)%nat ->
  pixel_center rows cols bbox i j
  = mkPoint (min_x bbox + (INR i + 1 / 2) * ((max_x bbox - min_x bbox) / INR rows))
            (min_y bbox + (INR j + 1 / 2) * ((max_y bbox - min_y bbox) / INR cols)).
Proof.
  intros Hr Hc. unfold pixel_center. cbn [add sub mul div of_int R_arith].
  assert (Hr' : INR rows <> 0) by (apply not_0_INR; lia).
  assert (Hc' : INR cols <> 0) by (apply not_0_INR; lia).
  rewrite !plus_IZR, !mult_IZR, <- !INR_IZR_INZ.
  f_equal; field; assumption.
Qed.

(** X18: read over the reals, the cells sample a regular grid: cell
    [(i, j)] tests the point at [i + 1/2] steps from [min_x] and [j + 1/2]
    steps from [min_y], a step being the length of the box divided by the
    number of rows along x, and by the number of columns along y. *)
Theorem get_field_pixels_grid (img : ndarray R) (bbox : BBox R) (field : Polygon)
    (rows cols : nat) (rest : list nat) :
  shape img = rows :: cols :: rest ->
  exists mask,
    get_field_pixels contains img bbox field = Ok mask /\
    forall i j, (i < rows)%nat -> (j < cols)%nat ->
      getitem2 mask i j
      = Ok (contains field
              (mkPoint
                 (min_x bbox + (INR i + 1 / 2) * ((max_x bbox - min_x bbox) / INR rows))
                 (min_y bbox + (INR j + 1 / 2) * ((max_y bbox - min_y bbox) / INR cols)))).
Proof.
  intros Hshape. eexists.
  split; [apply (get_field_pixels_run _ contains _ _ _ _ _ _ Hshape) |].
  intros i j Hi Hj. apply mask_getitem. repeat split; try assumption.
  rewrite pixel_center_grid by lia. reflexivity.
Qed.
End Grid.

(** X19: read over the reals, a rescaling multiplies the extent of the box
    on each axis by target over natural dimension, and an axis whose
    natural dimension already is the target keeps its maximum. *)
Theorem get_bbox_of_given_size_scales (bbox_to_dimensions : BBox R -> Z -> Z * Z)
    (min_lon min_lat max_lon max_lat : R) (pix : Z * Z) (resolution : Z) :
  bbox_to_dimensions (mkBBox min_lon min_lat max_lon max_lat WGS84) resolution <> pix ->
  fst (bbox_to_dimensions (mkBBox min_lon min_lat max_lon max_lat WGS84) resolution)
    <> 0%Z ->
  snd (bbox_to_dimensions (mkBBox min_lon min_lat max_lon max_lat WGS84) resolution)
    <> 0%Z ->
  exists box,
    get_bbox_of_given_size bbox_to_dimensions
      [min_lon; min_lat; max_lon; max_lat] pix resolution = Ok box /\
    (max_x box - min_x box)
      * IZR (fst (bbox_to_dimensions
                    (mkBBox min_lon min_lat max_lon max_lat WGS84) resolution))
    = (max_lon - min_lon) * IZR (fst pix) /\
    (max_y box - min_y box)
      * IZR (snd (bbox_to_dimensions
                    (mkBBox min_lon min_lat max_lon max_lat WGS84) resolution))
    = (max_lat - min_lat) * IZR (snd pix) /\
    (fst pix
       = fst (bbox_to_dimensions
                (mkBBox min_lon min_lat max_lon max_lat WGS84) resolution) ->
     max_x box = max_lon) /\
    (snd pix
       = snd (bbox_to_dimensions
                (mkBBox min_lon min_lat max_lon max_lat WGS84) resolution) ->
     max_y box = max_lat).
Proof.
  set (natural := bbox_to_dimensions _ resolution).
  intros Hne Hx Hy. eexists.
  split; [apply (get_bbox_rescaled bbox_to_dimensions _ _ _ _ pix resolution Hne Hx Hy) |].
  fold natural. cbn [min_x min_y max_x max_y add sub mul div of_int R_arith].
  assert (Hx' : IZR (fst natural) <> 0) by (apply not_0_IZR; exact Hx).
  assert (Hy' : IZR (snd natural) <> 0) by (apply not_0_IZR; exact Hy).
  repeat split.
  - field. exact Hx'.
  - field. exact Hy'.
  - intros ->. field. exact Hx'.
  - intros ->. field. exact Hy'.
Qed.

End Geometry.

(** ** Instances of the statements above *)

Lemma get_field_pixels_raises_iff_witness :
  get_field_pixels float_rectangle_contains (mk_ndarray [6]%nat [1; 2; 3; 4; 5; 6]%float)
    (mkBBox 0 0 2 3 WGS84)%float (mkBBox 0 0 1 3 WGS84)%float
  = Raise IndexError.
Proof.
  apply (proj2 (get_field_pixels_raises_iff (BBox float) float_rectangle_contains
                  (mk_ndarray [6]%nat [1; 2; 3; 4; 5; 6]%float)
                  (mkBBox 0 0 2 3 WGS84)%float (mkBBox 0 0 1 3 WGS84)%float IndexError)).
  split; [cbn; lia | reflexivity].
Defined.

Lemma get_field_pixels_monotone_witness :
  getitem2 (mk_ndarray [2; 3]%nat [true; true; true; true; true; true]) 0 1 = Ok true.
Proof.
  apply (get_field_pixels_monotone (BBox float) unit
           float_rectangle_contains (fun _ _ => true)
           (mk_ndarray [2; 3]%nat [1; 2; 3; 4; 5; 6]%float)
           (mkBBox 0 0 2 3 WGS84)%float (mkBBox 0 0 1 3 WGS84)%float tt
           (mk_ndarray [2; 3]%nat [true; true; true; false; false; false])
           (mk_ndarray [2; 3]%nat [true; true; true; true; true; true])).
  - reflexivity.
  - reflexivity.
  - reflexivity.
  - reflexivity.
Defined.

Lemma get_field_pixels_transpose_witness :
  exists mask1 mask2,
    get_field_pixels float_rectangle_contains
      (mk_ndarray [2; 3]%nat [1; 2; 3; 4; 5; 6]%float)
      (mkBBox 0 0 2 3 WGS84)%float (mkBBox 0 0 1 3 WGS84)%float = Ok mask1 /\
    get_field_pixels (fun f p => float_rectangle_contains f (transpose_point p))
      (mk_ndarray [3; 2]%nat [1; 2; 3; 4; 5; 6]%float)
      (transpose_bbox (mkBBox 0 0 2 3 WGS84)%float) (mkBBox 0 0 1 3 WGS84)%float
    = Ok mask2 /\
    forall i j, (i < 2)%nat -> (j < 3)%nat ->
      exists v, getitem2 mask1 i j = Ok v /\ getitem2 mask2 j i = Ok v.
Proof.
  apply (get_field_pixels_transpose (BBox float) (BBox float)
           float_rectangle_contains
           (fun f p => float_rectangle_contains f (transpose_point p))
           (mk_ndarray [2; 3]%nat [1; 2; 3; 4; 5; 6]%float)
           (mk_ndarray [3; 2]%nat [1; 2; 3; 4; 5; 6]%float)
           (mkBBox 0 0 2 3 WGS84)%float
           (mkBBox 0 0 1 3 WGS84)%float (mkBBox 0 0 1 3 WGS84)%float
           2%nat 3%nat [] []); reflexivity.
Defined.

Lemma get_bbox_of_given_size_raises_only_witness :
  get_bbox_of_given_size float_rounded_dimensions [0; 0; 1]%float (10, 10)%Z 1%Z
  = Raise ValueError.
Proof.
  apply (proj1 (get_bbox_of_given_size_raises_only float_rounded_dimensions
                  [0; 0; 1]%float (10, 10)%Z 1%Z)).
  cbn. lia.
Defined.

Lemma get_square_around_point_extents_witness :
  exists min_lon min_lat max_lon max_lat : R,
    get_square_around_point 2%R 41%R 1000%R = Ok [min_lon; min_lat; max_lon; max_lat] /\
    (max_lat - min_lat = 1000 / 111111)%R /\
    ((max_lon - min_lon) * cos (41 * (PI / 180)) = 1000 / 111111)%R /\
    ((0 <= 1000)%R -> (max_lat - min_lat <= max_lon - min_lon)%R).
Proof.
  apply (Geometry.get_square_around_point_extents 2%R 41%R 1000%R). lra.
Defined.

Lemma get_square_around_point_nonpositive_witness :
  exists min_lon min_lat max_lon max_lat : R,
    get_square_around_point 2%R 41%R (-1000)%R
      = Ok [min_lon; min_lat; max_lon; max_lat] /\
    ((-1000)%R = 0%R ->
       min_lon = 2%R /\ max_lon = 2%R /\ min_lat = 41%R /\ max_lat = 41%R) /\
    ((-1000 < 0)%R -> (max_lon < min_lon)%R /\ (max_lat < min_lat)%R).
Proof.
  apply (Geometry.get_square_around_point_nonpositive 2%R 41%R (-1000)%R); lra.
Defined.

Lemma get_field_pixels_grid_witness :
  exists mask,
    get_field_pixels real_rectangle_contains
      (mk_ndarray [2; 3]%nat [1; 2; 3; 4; 5; 6]%R)
      (mkBBox 0 0 1 1 WGS84)%R (mkBBox 0 0 1 1 WGS84)%R = Ok mask /\
    forall i j, (i < 2)%nat -> (j < 3)%nat ->
      getitem2 mask i j
      = Ok (real_rectangle_contains (mkBBox 0 0 1 1 WGS84)%R
              (mkPoint (0 + (INR i + 1 / 2) * ((1 - 0) / INR 2))%R
                       (0 + (INR j + 1 / 2) * ((1 - 0) / INR 3))%R)).
Proof.
  apply (Geometry.get_field_pixels_grid (BBox R) real_rectangle_contains
           (mk_ndarray [2; 3]%nat [1; 2; 3; 4; 5; 6]%R)
           (mkBBox 0 0 1 1 WGS84)%R (mkBBox 0 0 1 1 WGS84)%R 2%nat 3%nat []).
  reflexivity.
Defined.

Lemma get_bbox_of_given_size_scales_witness :
  exists box,
    get_bbox_of_given_size (fun (_ : BBox R) (_ : Z) => (2, 5)%Z)
      [0; 0; 1; 1]%R (4, 5)%Z 10%Z = Ok box /\
    ((max_x box - min_x box) * IZR (fst (2, 5)%Z) = (1 - 0) * IZR (fst (4, 5)%Z))%R /\
    ((max_y box - min_y box) * IZR (snd (2, 5)%Z) = (1 - 0) * IZR (snd (4, 5)%Z))%R /\
    (fst (4, 5)%Z = fst (2, 5)%Z -> max_x box = 1%R) /\
    (snd (4, 5)%Z = snd (2, 5)%Z -> max_y box = 1%R).
Proof.
  apply (Geometry.get_bbox_of_given_size_scales (fun (_ : BBox R) (_ : Z) => (2, 5)%Z)
           0%R 0%R 1%R 1%R (4, 5)%Z 10%Z); cbn; congruence.
Defined.
